(** * Verification model of the storj-worker Flask gateway (src/app.py)

    The gateway proxies notes and canvas documents to an S3 bucket, guards
    its routes with a bearer token and keeps process-wide bandwidth
    counters.  This file embeds [src/app.py] shallowly:
    - Python [str] values are lists of code points ([pstr]), [bytes] are
      lists of integers in [0, 255];
    - JSON request bodies are the Python values [request.get_json()]
      returns ([json]);
    - the S3 bucket is a [gmap] from keys to objects, together with the
      conditions under which boto3 raises ([world]);
    - each handler runs in a small state monad over the world which also
      records every object-store call it attempts. *)

From Stdlib Require Import ZArith String Ascii Lia.
From stdpp Require Import base gmap strings list.

Open Scope Z_scope.
Set Warnings "-register-all".

(* ------------------------------------------------------------------ *)
(** ** Python strings and bytes *)

Definition pstr := list Z.
Definition bytes := list Z.

(** ASCII literal as a Python [str]. *)
Definition lit (s : string) : pstr :=
  map (fun a => Z.of_nat (Ascii.nat_of_ascii a)) (String.list_ascii_of_string s).

(** [s.endswith(suf)] *)
Definition endswith (s suf : pstr) : bool :=
  if decide (suf `suffix_of` s) then true else false.

(** Decimal rendering of an integer, as [str(n)]. *)
Fixpoint digits_rev (fuel : nat) (n : Z) : pstr :=
  match fuel with
  | O => []
  | S f => (48 + n mod 10) :: (if n <? 10 then [] else digits_rev f (n / 10))
  end.

Definition py_int_str (n : Z) : pstr :=
  let a := Z.abs n in
  let ds := rev (digits_rev (S (Z.to_nat (Z.log2 (a + 1)))) a) in
  if n <? 0 then 45 :: ds else ds.

(** *** UTF-8, as CPython's strict [str.encode("utf-8")] and
    [bytes.decode("utf-8")] *)

Definition is_scalar (c : Z) : bool :=
  (0 <=? c) && (c <=? 0x10FFFF) && negb ((0xD800 <=? c) && (c <=? 0xDFFF)).

(** Bytes of one code point (total; [py_encode] rejects the non-scalars). *)
Definition encode_cp (c : Z) : bytes :=
  if c <? 0x80 then [c]
  else if c <? 0x800 then [0xC0 + c / 64; 0x80 + c mod 64]
  else if c <? 0x10000 then
    [0xE0 + c / 4096; 0x80 + (c mod 4096) / 64; 0x80 + c mod 64]
  else
    [0xF0 + c / 262144; 0x80 + (c mod 262144) / 4096;
     0x80 + (c mod 4096) / 64; 0x80 + c mod 64].

(** [content.encode("utf-8")]: fails ([UnicodeEncodeError]) on a lone
    surrogate. *)
Definition py_encode (s : pstr) : option bytes :=
  if forallb is_scalar s then Some (flat_map encode_cp s) else None.

Definition cont (b : Z) : bool := (0x80 <=? b) && (b <? 0xC0).

(** [data.decode("utf-8")]: rejects stray continuation bytes, truncated
    sequences, overlong forms, surrogates and values above U+10FFFF. *)
Fixpoint utf8_decode (bs : bytes) : option pstr :=
  match bs with
  | [] => Some []
  | b0 :: t =>
      if (0 <=? b0) && (b0 <? 0x80) then cons b0 <$> utf8_decode t
      else if (0xC0 <=? b0) && (b0 <? 0xE0) then
        match t with
        | b1 :: t1 =>
            let cp := (b0 - 0xC0) * 64 + (b1 - 0x80) in
            if cont b1 && (0x80 <=? cp) then cons cp <$> utf8_decode t1
            else None
        | [] => None
        end
      else if (0xE0 <=? b0) && (b0 <? 0xF0) then
        match t with
        | b1 :: b2 :: t2 =>
            let cp := (b0 - 0xE0) * 4096 + (b1 - 0x80) * 64 + (b2 - 0x80) in
            if cont b1 && cont b2 && (0x800 <=? cp)
               && negb ((0xD800 <=? cp) && (cp <=? 0xDFFF))
            then cons cp <$> utf8_decode t2 else None
        | _ => None
        end
      else if (0xF0 <=? b0) && (b0 <? 0xF8) then
        match t with
        | b1 :: b2 :: b3 :: t3 =>
            let cp := (b0 - 0xF0) * 262144 + (b1 - 0x80) * 4096
                      + (b2 - 0x80) * 64 + (b3 - 0x80) in
            if cont b1 && cont b2 && cont b3 && (0x10000 <=? cp)
               && (cp <=? 0x10FFFF)
            then cons cp <$> utf8_decode t3 else None
        | _ => None
        end
      else None
  end.

(* ------------------------------------------------------------------ *)
(** ** Lemmas on the codec *)

(** Decide every comparison of the goal by [lia], left to right. *)
Ltac zsimpl :=
  repeat (match goal with
  | |- context [?a <? ?b] =>
      first [ rewrite (proj2 (Z.ltb_lt a b)) by lia
            | rewrite (proj2 (Z.ltb_ge a b)) by lia ]
  | |- context [?a <=? ?b] =>
      first [ rewrite (proj2 (Z.leb_le a b)) by lia
            | rewrite (proj2 (Z.leb_gt a b)) by lia ]
  end; cbn [andb negb]).

Lemma utf8_decode_cp (c : Z) (rest : bytes) :
  is_scalar c = true ->
  utf8_decode (encode_cp c ++ rest) = cons c <$> utf8_decode rest.
Proof.
  unfold is_scalar; intros Hc.
  apply andb_prop in Hc as [Hc Hs]; apply andb_prop in Hc as [H0 H1].
  apply Z.leb_le in H0; apply Z.leb_le in H1.
  apply negb_true_iff, andb_false_iff in Hs.
  assert (Hsur : c < 0xD800 \/ 0xDFFF < c).
  { destruct Hs as [Hs | Hs]; [apply Z.leb_gt in Hs | apply Z.leb_gt in Hs]; lia. }
  clear Hs.
  unfold encode_cp.
  destruct (Z.ltb_spec c 0x80).
  { cbn [app utf8_decode]. zsimpl. reflexivity. }
  destruct (Z.ltb_spec c 0x800).
  { pose proof (Z.div_mod c 64 ltac:(lia)).
    pose proof (Z.mod_pos_bound c 64 ltac:(lia)).
    remember (c / 64) as q; remember (c mod 64) as r.
    cbn [app utf8_decode]. unfold cont. zsimpl.
    replace ((0xC0 + q - 0xC0) * 64 + (0x80 + r - 0x80)) with c by lia.
    reflexivity. }
  destruct (Z.ltb_spec c 0x10000).
  { pose proof (Z.div_mod c 4096 ltac:(lia)).
    pose proof (Z.mod_pos_bound c 4096 ltac:(lia)).
    pose proof (Z.div_mod (c mod 4096) 64 ltac:(lia)).
    pose proof (Z.mod_pos_bound (c mod 4096) 64 ltac:(lia)).
    assert (Hm : (c mod 4096) mod 64 = c mod 64).
    { apply Z.mod_mod_divide; exists 64; lia. }
    rewrite Hm in *.
    remember (c / 4096) as q1; remember (c mod 4096) as m;
    remember (m / 64) as q2; remember (c mod 64) as r.
    cbn [app utf8_decode]. unfold cont. destruct Hsur; zsimpl.
    all: replace ((0xE0 + q1 - 0xE0) * 4096 + (0x80 + q2 - 0x80) * 64
             + (0x80 + r - 0x80)) with c by lia; zsimpl; reflexivity. }
  pose proof (Z.div_mod c 262144 ltac:(lia)).
  pose proof (Z.mod_pos_bound c 262144 ltac:(lia)).
  pose proof (Z.div_mod (c mod 262144) 4096 ltac:(lia)).
  pose proof (Z.mod_pos_bound (c mod 262144) 4096 ltac:(lia)).
  pose proof (Z.div_mod (c mod 4096) 64 ltac:(lia)).
  pose proof (Z.mod_pos_bound (c mod 4096) 64 ltac:(lia)).
  assert (Hm : (c mod 4096) mod 64 = c mod 64).
  { apply Z.mod_mod_divide; exists 64; lia. }
  assert (Hm' : (c mod 262144) mod 4096 = c mod 4096).
  { apply Z.mod_mod_divide; exists 64; lia. }
  rewrite Hm, Hm' in *.
  remember (c / 262144) as q1; remember (c mod 262144) as m1;
  remember (m1 / 4096) as q2; remember (c mod 4096) as m2;
  remember (m2 / 64) as q3; remember (c mod 64) as r.
  cbn [app utf8_decode]. unfold cont. zsimpl.
  replace ((0xF0 + q1 - 0xF0) * 262144 + (0x80 + q2 - 0x80) * 4096
           + (0x80 + q3 - 0x80) * 64 + (0x80 + r - 0x80)) with c by lia.
  reflexivity.
Qed.

Lemma utf8_roundtrip (s : pstr) (b : bytes) :
  py_encode s = Some b -> utf8_decode b = Some s.
Proof.
  unfold py_encode. destruct (forallb is_scalar s) eqn:Hs; [|discriminate].
  intros [= <-]. induction s as [|c s IH]; [reflexivity|].
  simpl in Hs |- *. apply andb_prop in Hs as [Hc Hs].
  rewrite utf8_decode_cp by exact Hc. rewrite IH by exact Hs. reflexivity.
Qed.

(* ------------------------------------------------------------------ *)
(** ** JSON values as [request.get_json()] returns them *)

Inductive json :=
| JNull
| JBool (b : bool)
| JInt (z : Z)
| JStr (s : pstr)
| JArr (l : list json)
| JObj (l : list (pstr * json)).

Definition is_empty {A} (l : list A) : bool :=
  match l with [] => true | _ => false end.

(** Python truthiness, as used by [if not filename] / [if not content]. *)
Definition truthy (v : json) : bool :=
  match v with
  | JNull => false
  | JBool b => b
  | JInt z => negb (z =? 0)
  | JStr s => negb (is_empty s)
  | JArr l => negb (is_empty l)
  | JObj l => negb (is_empty l)
  end.

Fixpoint assoc_get {V} (k : pstr) (l : list (pstr * V)) : option V :=
  match l with
  | [] => None
  | (k', v) :: t => if decide (k = k') then Some v else assoc_get k t
  end.

(** [data.get(k, dflt)]; [None] is the [AttributeError] raised when
    [data] is not a dict. *)
Definition py_get (d : json) (k : pstr) (dflt : json) : option json :=
  match d with
  | JObj l => Some (default dflt (assoc_get k l))
  | _ => None
  end.

Definition py_type_name (v : json) : pstr :=
  match v with
  | JNull => lit "NoneType" | JBool _ => lit "bool" | JInt _ => lit "int"
  | JStr _ => lit "str" | JArr _ => lit "list" | JObj _ => lit "dict"
  end.

(** [str(v)] for the scalar values a canvas content can be. *)
Definition py_str (v : json) : pstr :=
  match v with
  | JNull => lit "None"
  | JBool true => lit "True"
  | JBool false => lit "False"
  | JInt z => py_int_str z
  | JStr s => s
  | JArr _ | JObj _ => []   (* not used: lists and dicts go through json.dumps *)
  end.

Definition hex_digit (d : Z) : Z := if d <? 10 then 48 + d else 87 + d.

(** [json.dumps(..., ensure_ascii=False)] string quoting. *)
Definition json_escape (c : Z) : pstr :=
  if c =? 34 then [92; 34]
  else if c =? 92 then [92; 92]
  else if c =? 10 then [92; 110]
  else if c =? 13 then [92; 114]
  else if c =? 9 then [92; 116]
  else if c =? 8 then [92; 98]
  else if c =? 12 then [92; 102]
  else if c <? 32 then [92; 117; 48; 48; hex_digit (c / 16); hex_digit (c mod 16)]
  else [c].

Definition json_quote (s : pstr) : pstr := [34] ++ flat_map json_escape s ++ [34].

Fixpoint join (sep : pstr) (l : list pstr) : pstr :=
  match l with
  | [] => []
  | [x] => x
  | x :: t => x ++ sep ++ join sep t
  end.

Definition newline_indent (lvl : nat) : pstr := 10 :: repeat 32 (2 * lvl)%nat.

(** [json.dumps(content, indent=2, ensure_ascii=False)] *)
Fixpoint dumps_at (lvl : nat) (v : json) : pstr :=
  match v with
  | JNull => lit "null"
  | JBool true => lit "true"
  | JBool false => lit "false"
  | JInt z => py_int_str z
  | JStr s => json_quote s
  | JArr [] => lit "[]"
  | JArr l =>
      [91] ++ newline_indent (S lvl)
      ++ join (44 :: newline_indent (S lvl)) (map (dumps_at (S lvl)) l)
      ++ newline_indent lvl ++ [93]
  | JObj [] => lit "{}"
  | JObj l =>
      [123] ++ newline_indent (S lvl)
      ++ join (44 :: newline_indent (S lvl))
              (map (fun kv => json_quote kv.1 ++ lit ": " ++ dumps_at (S lvl) kv.2) l)
      ++ newline_indent lvl ++ [125]
  end.

Definition json_dumps (v : json) : pstr := dumps_at 0 v.

(* ------------------------------------------------------------------ *)
(** ** The S3 bucket and the boto3 client *)

Record obj := mkObj { o_body : bytes; o_ctype : option pstr; o_mtime : pstr }.

(** The bucket's objects, the keys the credentials may not touch
    (S3 answers 403), whether the endpoint is reachable, the endpoint URL
    and the store's clock (for [LastModified]). *)
Record world := mkWorld {
  objects : gmap pstr obj;
  denied : gset pstr;
  down : bool;
  endpoint_url : pstr;
  clock : pstr
}.

Inductive s3_error :=
| ClientError (code op msg : pstr)   (* botocore.exceptions.ClientError *)
| EndpointConnectionError            (* botocore, not a ClientError *)
| ParamValidationError.              (* botocore, raised before sending *)

Definition is_client_error (e : s3_error) : bool :=
  match e with ClientError _ _ _ => true | _ => false end.

(** [s3.exceptions.NoSuchKey] is the ClientError with that code. *)
Definition is_no_such_key (e : s3_error) : bool :=
  match e with
  | ClientError code _ _ => if decide (code = lit "NoSuchKey") then true else false
  | _ => false
  end.

(** [str(e)] *)
Definition err_str (w : world) (e : s3_error) : pstr :=
  match e with
  | ClientError code op msg =>
      lit "An error occurred (" ++ code ++ lit ") when calling the " ++ op
      ++ lit " operation: " ++ msg
  | EndpointConnectionError =>
      lit "Could not connect to the endpoint URL: " ++ [34] ++ endpoint_url w ++ [34]
  | ParamValidationError =>
      lit "Parameter validation failed: Invalid type for parameter Key"
  end.

Definition fault (w : world) (op k : pstr) : option s3_error :=
  if down w then Some EndpointConnectionError
  else if decide (k ∈ denied w) then
    (* a HEAD response has no body: the code is the bare status *)
    if decide (op = lit "HeadObject")
    then Some (ClientError (lit "403") op (lit "Forbidden"))
    else Some (ClientError (lit "AccessDenied") op (lit "Access Denied"))
  else None.

(** Object-store calls, as the handlers issue them. *)
Inductive call :=
| CList
| CGet (k : pstr)
| CPut (k : pstr) (body : bytes)
| CHead (k : pstr)
| CDelete (k : pstr).

(** A handler step: its result, the world after it, the calls it made. *)
Record step (A : Type) := Step { out : A; fin : world; trace : list call }.
Arguments Step {A}. Arguments out {A}. Arguments fin {A}. Arguments trace {A}.

Definition M (A : Type) := world -> step A.

Definition ret {A} (a : A) : M A := fun w => Step a w [].

Definition bind {A B} (m : M A) (f : A -> M B) : M B :=
  fun w => let s1 := m w in
           let s2 := f (out s1) (fin s1) in
           Step (out s2) (fin s2) (trace s1 ++ trace s2).

Notation "'let!' x ':=' m 'in' k" := (bind m (fun x => k))
  (at level 200, x name, m at level 100, k at level 200).

(** [list_objects_v2(Bucket=BUCKET)]: one page of at most 1000 keys
    (the order S3 returns them in is not modelled). *)
Definition s3_list : M (s3_error + list pstr) := fun w =>
  Step (if down w then inl EndpointConnectionError
        else inr (take 1000 (map fst (map_to_list (objects w)))))
       w [CList].

Definition s3_get (k : pstr) : M (s3_error + obj) := fun w =>
  Step (match fault w (lit "GetObject") k with
        | Some e => inl e
        | None =>
            match objects w !! k with
            | Some o => inr o
            | None => inl (ClientError (lit "NoSuchKey") (lit "GetObject")
                             (lit "The specified key does not exist."))
            end
        end) w [CGet k].

Definition s3_head (k : pstr) : M (s3_error + obj) := fun w =>
  Step (match fault w (lit "HeadObject") k with
        | Some e => inl e
        | None =>
            match objects w !! k with
            | Some o => inr o
            | None => inl (ClientError (lit "404") (lit "HeadObject") (lit "Not Found"))
            end
        end) w [CHead k].

Definition s3_put (k : pstr) (body : bytes) (ctype : option pstr) : M (s3_error + unit) :=
  fun w =>
  match fault w (lit "PutObject") k with
  | Some e => Step (inl e) w [CPut k body]
  | None =>
      Step (inr tt)
           (mkWorld (<[k := mkObj body ctype (clock w)]> (objects w))
                    (denied w) (down w) (endpoint_url w) (clock w))
           [CPut k body]
  end.

Definition s3_delete (k : pstr) : M (s3_error + unit) := fun w =>
  match fault w (lit "DeleteObject") k with
  | Some e => Step (inl e) w [CDelete k]
  | None =>
      Step (inr tt)
           (mkWorld (delete k (objects w)) (denied w) (down w) (endpoint_url w) (clock w))
           [CDelete k]
  end.

(** [str(e)] is read from the world the handler runs in. *)
Definition get_err_str (e : s3_error) : M pstr := fun w => Step (err_str w e) w [].

(* ------------------------------------------------------------------ *)
(** ** Configuration, requests, responses *)

(** [BACKEND_TOKEN], [BUCKET], [ENDPOINT] as [os.getenv] returns them. *)
Record config := mkConfig {
  BACKEND_TOKEN : option pstr;
  BUCKET : option pstr;
  ENDPOINT : option pstr
}.

(** The parts of a Flask [request] the code reads: the [Authorization]
    header, [request.get_json()], [request.data], [request.form], and the
    body as it came over the wire. *)
Record request := mkRequest {
  rq_auth : option pstr;
  rq_json : json;
  rq_data : bytes;
  rq_form : list (pstr * pstr);
  rq_body : bytes
}.

(** A view's result: a JSON response, or an exception the view does not
    catch (Flask answers it with its own 500 page). *)
Inductive outcome :=
| Resp (status : Z) (body : json)
| Crash.

Definition status (o : outcome) : Z :=
  match o with Resp s _ => s | Crash => 500 end.

Definition err (msg : pstr) : json := JObj [(lit "error", JStr msg)].

Definition unauthorized : outcome := Resp 401 (err (lit "Unauthorized")).

(** [check_auth] *)
Definition check_auth (cfg : config) (rq : request) : option outcome :=
  match BACKEND_TOKEN cfg with
  | Some tok =>
      if truthy (JStr tok) then
        if decide (rq_auth rq = Some (lit "Bearer " ++ tok)) then None
        else Some unauthorized
      else None
  | None => None
  end.

(** [if not filename.endswith(".canvas"): filename = f"{filename}.canvas"] *)
Definition normalize (filename : pstr) : pstr :=
  if endswith filename (lit ".canvas") then filename else filename ++ lit ".canvas".

Definition canvas_msg (pre : string) (filename : pstr) (post : string) : pstr :=
  lit pre ++ filename ++ lit post.

Definition s3_fail (e : s3_error) : M outcome :=
  let! m := get_err_str e in ret (Resp 500 (err m)).

Definition decode_error_msg : pstr := lit "'utf-8' codec can't decode bytes".
Definition encode_error_msg : pstr := lit "'utf-8' codec can't encode characters".
Definition attr_error_msg (v : json) (attr : string) : pstr :=
  lit "'" ++ py_type_name v ++ lit "' object has no attribute '" ++ lit attr ++ lit "'".

(** The [content_str] computed by the canvas create and update views. *)
Definition canvas_content_str (content : json) : pstr :=
  match content with
  | JObj _ | JArr _ => json_dumps content
  | _ => py_str content
  end.

(* ------------------------------------------------------------------ *)
(** ** Views of [src/app.py] *)

Definition health (cfg : config) : M outcome :=
  ret (Resp 200 (JObj [(lit "ok", JBool true);
                       (lit "bucket", from_option JStr JNull (BUCKET cfg));
                       (lit "endpoint", from_option JStr JNull (ENDPOINT cfg))])).

Definition list_notes (cfg : config) (rq : request) : M outcome :=
  match check_auth cfg rq with
  | Some r => ret r
  | None =>
      let! r := s3_list in
      match r with
      | inr ks => ret (Resp 200 (JObj [(lit "files", JArr (map JStr ks))]))
      | inl e => s3_fail e
      end
  end.

Definition read_note (cfg : config) (rq : request) : M outcome :=
  match check_auth cfg rq with
  | Some r => ret r
  | None =>
      match py_get (rq_json rq) (lit "filename") JNull with
      | None => ret Crash
      | Some filename =>
          if negb (truthy filename) then ret (Resp 400 (err (lit "Missing filename")))
          else
            match filename with
            | JStr k =>
                let! r := s3_get k in
                match r with
                | inr o =>
                    match utf8_decode (o_body o) with
                    | Some content =>
                        ret (Resp 200 (JObj [(lit "filename", JStr k);
                                             (lit "content", JStr content)]))
                    | None => ret (Resp 500 (err decode_error_msg))
                    end
                | inl e =>
                    if is_no_such_key e then ret (Resp 404 (err (lit "Not found")))
                    else s3_fail e
                end
            | _ => s3_fail ParamValidationError
            end
      end
  end.

Definition write_note (cfg : config) (rq : request) : M outcome :=
  match check_auth cfg rq with
  | Some r => ret r
  | None =>
      match py_get (rq_json rq) (lit "filename") JNull,
            py_get (rq_json rq) (lit "content") (JStr []) with
      | Some filename, Some content =>
          if negb (truthy filename) then ret (Resp 400 (err (lit "Missing filename")))
          else
            (* Body=content.encode("utf-8") is evaluated before the call *)
            match content with
            | JStr c =>
                match py_encode c with
                | None => ret (Resp 500 (err encode_error_msg))
                | Some body =>
                    match filename with
                    | JStr k =>
                        let! r := s3_put k body None in
                        match r with
                        | inr _ =>
                            ret (Resp 200 (JObj [(lit "success", JBool true);
                                                 (lit "message", JStr (k ++ lit " uploaded"))]))
                        | inl e => s3_fail e
                        end
                    | _ => s3_fail ParamValidationError
                    end
                end
            | _ => ret (Resp 500 (err (attr_error_msg content "encode")))
            end
      | _, _ => ret Crash
      end
  end.

Definition list_canvas (cfg : config) (rq : request) : M outcome :=
  match check_auth cfg rq with
  | Some r => ret r
  | None =>
      let! r := s3_list in
      match r with
      | inr ks =>
          let canvas_files := filter (fun k => endswith k (lit ".canvas") = true) ks in
          ret (Resp 200 (JObj [(lit "count", JInt (Z.of_nat (length canvas_files)));
                               (lit "files", JArr (map JStr canvas_files))]))
      | inl e => s3_fail e
      end
  end.

(** [get_canvas]; [json_loads] is Python's [json.loads], [None] standing
    for its [JSONDecodeError]. *)
Definition get_canvas (json_loads : pstr -> option json)
    (cfg : config) (rq : request) (filename0 : pstr) : M outcome :=
  match check_auth cfg rq with
  | Some r => ret r
  | None =>
      let filename := normalize filename0 in
      let! r := s3_get filename in
      match r with
      | inr o =>
          match utf8_decode (o_body o) with
          | Some content =>
              let canvas_data := default (JStr content) (json_loads content) in
              ret (Resp 200 (JObj [(lit "filename", JStr filename);
                                   (lit "content", canvas_data);
                                   (lit "size", JInt (Z.of_nat (length content)));
                                   (lit "last_modified", JStr (o_mtime o))]))
          | None => ret (Resp 500 (err decode_error_msg))
          end
      | inl e =>
          if is_no_such_key e
          then ret (Resp 404 (err (canvas_msg "Canvas file '" filename "' not found")))
          else s3_fail e
      end
  end.

Definition create_canvas (cfg : config) (rq : request) : M outcome :=
  match check_auth cfg rq with
  | Some r => ret r
  | None =>
      match py_get (rq_json rq) (lit "filename") JNull,
            py_get (rq_json rq) (lit "content") JNull with
      | Some filename0, Some content =>
          if negb (truthy filename0) then ret (Resp 400 (err (lit "Missing filename")))
          else if negb (truthy content) then ret (Resp 400 (err (lit "Missing content")))
          else
            match filename0 with
            | JStr f =>
                let filename := normalize f in
                let! h := s3_head filename in
                match h with
                | inr _ =>
                    ret (Resp 409 (err (canvas_msg "Canvas file '" filename "' already exists")))
                | inl e =>
                    (* only a ClientError is swallowed by [except ClientError: pass] *)
                    if negb (is_client_error e) then s3_fail e
                    else
                      match py_encode (canvas_content_str content) with
                      | None => ret (Resp 500 (err encode_error_msg))
                      | Some body =>
                          let! p := s3_put filename body (Some (lit "application/json")) in
                          match p with
                          | inr _ =>
                              ret (Resp 201 (JObj [(lit "success", JBool true);
                                (lit "message", JStr (canvas_msg "Canvas '" filename "' created successfully"));
                                (lit "filename", JStr filename)]))
                          | inl e' => s3_fail e'
                          end
                      end
                end
            (* [filename.endswith] on a non-str, outside the try *)
            | _ => ret Crash
            end
      | _, _ => ret Crash
      end
  end.

Definition update_canvas (cfg : config) (rq : request) (filename0 : pstr) : M outcome :=
  match check_auth cfg rq with
  | Some r => ret r
  | None =>
      match py_get (rq_json rq) (lit "content") JNull with
      | None => ret Crash
      | Some content =>
          if negb (truthy content) then ret (Resp 400 (err (lit "Missing content")))
          else
            let filename := normalize filename0 in
            let! h := s3_head filename in
            match h with
            | inl e =>
                if is_client_error e
                then ret (Resp 404 (err (canvas_msg "Canvas file '" filename "' not found")))
                else s3_fail e
            | inr _ =>
                match py_encode (canvas_content_str content) with
                | None => ret (Resp 500 (err encode_error_msg))
                | Some body =>
                    let! p := s3_put filename body (Some (lit "application/json")) in
                    match p with
                    | inr _ =>
                        ret (Resp 200 (JObj [(lit "success", JBool true);
                          (lit "message", JStr (canvas_msg "Canvas '" filename "' updated successfully"));
                          (lit "filename", JStr filename)]))
                    | inl e' => s3_fail e'
                    end
                end
            end
      end
  end.

Definition delete_canvas (cfg : config) (rq : request) (filename0 : pstr) : M outcome :=
  match check_auth cfg rq with
  | Some r => ret r
  | None =>
      let filename := normalize filename0 in
      let! h := s3_head filename in
      match h with
      | inl e =>
          if is_client_error e
          then ret (Resp 404 (err (canvas_msg "Canvas file '" filename "' not found")))
          else s3_fail e
      | inr _ =>
          let! d := s3_delete filename in
          match d with
          | inr _ =>
              ret (Resp 200 (JObj [(lit "success", JBool true);
                (lit "message", JStr (canvas_msg "Canvas '" filename "' deleted successfully"));
                (lit "filename", JStr filename)]))
          | inl e' => s3_fail e'
          end
      end
  end.

(* ------------------------------------------------------------------ *)
(** ** Bandwidth statistics *)

Record ep_stats := mkEp { ep_requests : Z; ep_bytes_sent : Z; ep_bytes_received : Z }.

(** [bandwidth_stats]; [endpoints] keeps the dict's insertion order. *)
Record bstats := mkStats {
  total_bytes_sent : Z;
  total_bytes_received : Z;
  total_requests : Z;
  start_time : pstr;
  endpoints : list (pstr * ep_stats)
}.

Definition init_stats (t : pstr) : bstats := mkStats 0 0 0 t [].

(** [repr] of a Python [str]: single quotes unless the text has a single
    quote and no double quote; backslash, the quote, tab, newline and
    carriage return escaped; other control characters and surrogates as
    [\xNN] / [\uNNNN]. (Non-ASCII printability is approximated: code
    points from U+00A0 on, surrogates apart, are kept.) *)
Definition py_repr_char (q c : Z) : pstr :=
  if (c =? 92) || (c =? q) then [92; c]
  else if c =? 9 then [92; 116]
  else if c =? 10 then [92; 110]
  else if c =? 13 then [92; 114]
  else if (c <? 32) || ((127 <=? c) && (c <? 160)) then
    [92; 120; hex_digit (c / 16); hex_digit (c mod 16)]
  else if (0xD800 <=? c) && (c <=? 0xDFFF) then
    [92; 117; hex_digit (c / 4096); hex_digit ((c / 256) mod 16);
     hex_digit ((c / 16) mod 16); hex_digit (c mod 16)]
  else [c].

Definition py_repr_str (s : pstr) : pstr :=
  let q := if existsb (Z.eqb 39) s && negb (existsb (Z.eqb 34) s) then 34 else 39 in
  [q] ++ flat_map (py_repr_char q) s ++ [q].

(** [str(request.form)]: werkzeug's [ImmutableMultiDict([(k, v), ...])]. *)
Definition form_str (form : list (pstr * pstr)) : pstr :=
  lit "ImmutableMultiDict([" ++
  join (lit ", ") (map (fun kv => lit "(" ++ py_repr_str kv.1 ++ lit ", "
                                  ++ py_repr_str kv.2 ++ lit ")") form)
  ++ lit "])".

Definition zlen {A} (l : list A) : Z := Z.of_nat (length l).

(** [track_bandwidth_before] *)
Definition track_bandwidth_before (st : bstats) (rq : request) : bstats :=
  let add n := mkStats (total_bytes_sent st) (total_bytes_received st + n)
                       (total_requests st) (start_time st) (endpoints st) in
  if negb (is_empty (rq_data rq)) then add (zlen (rq_data rq))
  else if negb (is_empty (rq_form rq)) then add (zlen (flat_map encode_cp (form_str (rq_form rq))))
  else st.

(** [if endpoint not in bandwidth_stats["endpoints"]: ...] *)
Definition ep_ensure (k : pstr) (l : list (pstr * ep_stats)) : list (pstr * ep_stats) :=
  match assoc_get k l with
  | Some _ => l
  | None => l ++ [(k, mkEp 0 0 0)]
  end.

(** [bandwidth_stats["endpoints"][endpoint] = f(...)] on the dict entry. *)
Fixpoint ep_update (k : pstr) (f : ep_stats -> ep_stats) (l : list (pstr * ep_stats))
    : list (pstr * ep_stats) :=
  match l with
  | [] => []
  | (k', e) :: t => if decide (k = k') then (k', f e) :: t else (k', e) :: ep_update k f t
  end.

(** [track_bandwidth_after]; [endpoint] is [request.endpoint], [resp] is
    [response.data]. *)
Definition track_bandwidth_after (st : bstats) (rq : request)
    (endpoint0 : option pstr) (resp : bytes) : bstats :=
  let sent := if negb (is_empty resp) then zlen resp else 0 in
  let endpoint := default (lit "unknown") endpoint0 in
  let eps1 := ep_ensure endpoint (endpoints st) in
  let eps2 := ep_update endpoint
                (fun e => mkEp (ep_requests e + 1) (ep_bytes_sent e) (ep_bytes_received e)) eps1 in
  let eps3 := if negb (is_empty resp)
              then ep_update endpoint
                     (fun e => mkEp (ep_requests e) (ep_bytes_sent e + zlen resp)
                                    (ep_bytes_received e)) eps2
              else eps2 in
  let eps4 := if negb (is_empty (rq_data rq))
              then ep_update endpoint
                     (fun e => mkEp (ep_requests e) (ep_bytes_sent e)
                                    (ep_bytes_received e + zlen (rq_data rq))) eps3
              else eps3 in
  mkStats (total_bytes_sent st + sent) (total_bytes_received st)
          (total_requests st + 1) (start_time st) eps4.

(** One completed request as the two hooks see it. *)
Record exchange := mkExchange {
  ex_request : request;
  ex_endpoint : option pstr;
  ex_response : bytes
}.

Definition track (st : bstats) (ex : exchange) : bstats :=
  track_bandwidth_after (track_bandwidth_before st (ex_request ex))
                        (ex_request ex) (ex_endpoint ex) (ex_response ex).

Definition run_tracker (st : bstats) (exs : list exchange) : bstats :=
  fold_left track exs st.

(** [get_stats]; the float fields (MB and KB conversions, rounded) and the
    wall-clock fields (uptime, current time) are left out. *)
Definition stats_json (st : bstats) : json :=
  JObj [(lit "bandwidth",
          JObj [(lit "total_bytes_sent", JInt (total_bytes_sent st));
                (lit "total_bytes_received", JInt (total_bytes_received st));
                (lit "total_bytes", JInt (total_bytes_sent st + total_bytes_received st))]);
        (lit "requests",
          JObj [(lit "total", JInt (total_requests st));
                (lit "by_endpoint",
                  JObj (map (fun kv => (kv.1,
                     JObj [(lit "requests", JInt (ep_requests kv.2));
                           (lit "bytes_sent", JInt (ep_bytes_sent kv.2));
                           (lit "bytes_received", JInt (ep_bytes_received kv.2))]))
                     (endpoints st)))]);
        (lit "start_time", JStr (start_time st))].

Definition get_stats (cfg : config) (st : bstats) (rq : request) : M outcome :=
  match check_auth cfg rq with
  | Some r => ret r
  | None => ret (Resp 200 (stats_json st))
  end.

(* ------------------------------------------------------------------ *)
(** ** Routing *)

Inductive route :=
| RHealth
| RStats
| RListNotes
| RReadNote
| RWriteNote
| RListCanvas
| RGetCanvas (filename : pstr)
| RCreateCanvas
| RUpdateCanvas (filename : pstr)
| RDeleteCanvas (filename : pstr).

(** The routes whose view starts with [check_auth()]. *)
Definition authenticated (r : route) : bool :=
  match r with RHealth => false | _ => true end.

Definition dispatch (json_loads : pstr -> option json) (cfg : config) (st : bstats)
    (rq : request) (r : route) : M outcome :=
  match r with
  | RHealth => health cfg
  | RStats => get_stats cfg st rq
  | RListNotes => list_notes cfg rq
  | RReadNote => read_note cfg rq
  | RWriteNote => write_note cfg rq
  | RListCanvas => list_canvas cfg rq
  | RGetCanvas f => get_canvas json_loads cfg rq f
  | RCreateCanvas => create_canvas cfg rq
  | RUpdateCanvas f => update_canvas cfg rq f
  | RDeleteCanvas f => delete_canvas cfg rq f
  end.

(* ------------------------------------------------------------------ *)
(** ** Sample inputs *)

Definition sample_world : world :=
  mkWorld ∅ ∅ false (lit "https://gateway.storjshare.io") (lit "2026-10-14T00:00:00+00:00").

Definition no_json : pstr -> option json := fun _ => None.

Definition bearer_request (tok : pstr) (j : json) : request :=
  mkRequest (Some (lit "Bearer " ++ tok)) j [] [] [].

(* ------------------------------------------------------------------ *)
(** ** General lemmas *)

Lemma fault_none (w : world) (op k : pstr) :
  fault w op k = None <-> down w = false /\ k ∉ denied w.
Proof.
  unfold fault. destruct (down w); [split; [discriminate | intros [? _]; discriminate]|].
  destruct (decide (k ∈ denied w)) as [Hk|Hk].
  - split; [|intros [_ ?]; contradiction]. case_decide; discriminate.
  - tauto.
Qed.

Lemma assoc_get_head {V} (k : pstr) (v : V) (t : list (pstr * V)) :
  assoc_get k ((k, v) :: t) = Some v.
Proof. simpl. rewrite decide_True; reflexivity. Qed.

Lemma assoc_get_other {V} (k k' : pstr) (v : V) (t : list (pstr * V)) :
  k <> k' -> assoc_get k ((k', v) :: t) = assoc_get k t.
Proof. intros H. simpl. rewrite decide_False; auto. Qed.

Lemma endswith_app (f suf : pstr) : endswith (f ++ suf) suf = true.
Proof. unfold endswith. rewrite decide_True; [reflexivity|]. exists f; reflexivity. Qed.

Lemma normalize_endswith (f : pstr) : endswith (normalize f) (lit ".canvas") = true.
Proof.
  unfold normalize. destruct (endswith f (lit ".canvas")) eqn:E; [exact E|].
  apply endswith_app.
Qed.

Lemma normalize_idem (f : pstr) : normalize (normalize f) = normalize f.
Proof. unfold normalize at 1. rewrite normalize_endswith. reflexivity. Qed.

Lemma normalize_nonempty (f : pstr) : normalize f <> [].
Proof.
  unfold normalize. destruct (endswith f (lit ".canvas")) eqn:E.
  - unfold endswith in E. case_decide as Hs; [|discriminate].
    destruct Hs as [p ->]. destruct p; discriminate.
  - destruct f; discriminate.
Qed.

Lemma check_auth_reject (cfg : config) (rq : request) (tok : pstr) :
  BACKEND_TOKEN cfg = Some tok -> tok <> [] ->
  rq_auth rq <> Some (lit "Bearer " ++ tok) ->
  check_auth cfg rq = Some unauthorized.
Proof.
  intros Ht Hne Ha. unfold check_auth. rewrite Ht.
  destruct tok as [|c tok]; [contradiction|]. simpl.
  rewrite decide_False by exact Ha. reflexivity.
Qed.

Lemma check_auth_cases (cfg : config) (rq : request) :
  check_auth cfg rq = None \/ check_auth cfg rq = Some unauthorized.
Proof.
  unfold check_auth. destruct (BACKEND_TOKEN cfg); [|auto].
  destruct (truthy _); [|auto]. case_decide; auto.
Qed.

Lemma check_auth_open (cfg : config) (rq : request) :
  BACKEND_TOKEN cfg = None \/ BACKEND_TOKEN cfg = Some [] ->
  check_auth cfg rq = None.
Proof. unfold check_auth. intros [-> | ->]; reflexivity. Qed.

(** Stepping the handler monad. *)
Lemma bind_unfold {A B} (m : M A) (f : A -> M B) (w : world) :
  bind m f w =
  Step (out (f (out (m w)) (fin (m w)))) (fin (f (out (m w)) (fin (m w))))
       (trace (m w) ++ trace (f (out (m w)) (fin (m w)))).
Proof. reflexivity. Qed.

Definition put_world (w : world) (k : pstr) (o : obj) : world :=
  mkWorld (<[k := o]> (objects w)) (denied w) (down w) (endpoint_url w) (clock w).



Lemma s3_head_fault (w : world) (k : pstr) (e : s3_error) :
  fault w (lit "HeadObject") k = Some e -> s3_head k w = Step (inl e) w [CHead k].
Proof. intros H1. unfold s3_head. rewrite H1. reflexivity. Qed.

Lemma s3_put_ok (w : world) (k : pstr) (b : bytes) (ct : option pstr) :
  fault w (lit "PutObject") k = None ->
  s3_put k b ct w = Step (inr tt) (put_world w k (mkObj b ct (clock w))) [CPut k b].
Proof. intros H1. unfold s3_put. rewrite H1. reflexivity. Qed.

Lemma fault_put_world (w : world) (k k' : pstr) (o : obj) (op : pstr) :
  fault (put_world w k o) op k' = fault w op k'.
Proof. reflexivity. Qed.

(* ------------------------------------------------------------------ *)
(** ** C1: the bearer-token gate *)

(** Claim C1 (counterexample): with [BACKEND_TOKEN] set to the empty
    string, a request with no [Authorization] header is not answered 401:
    [GET /stats] gets its 200 report although the header is not
    ["Bearer " + secret]. *)
Lemma C1_empty_token_is_open :
  let cfg := mkConfig (Some []) None None in
  let rq := mkRequest None (JObj []) [] [] [] in
  BACKEND_TOKEN cfg = Some [] /\ rq_auth rq <> Some (lit "Bearer " ++ []) /\
  status (out (dispatch no_json cfg (init_stats []) rq RStats sample_world)) = 200.
Proof. simpl. split; [reflexivity | split; [discriminate | reflexivity]]. Qed.

(** Claim C1 (amended): when a non-empty bearer token is configured and the
    request's [Authorization] header is not exactly ["Bearer " + token],
    every authenticated route answers 401 [{"error": "Unauthorized"}],
    makes no object-store call and leaves the store unchanged; when no
    token or the empty token is configured, the gate lets every request
    through. *)
Theorem C1_auth_gate :
  (forall (json_loads : pstr -> option json) (cfg : config) (st : bstats)
          (rq : request) (r : route) (w : world) (tok : pstr),
      authenticated r = true -> BACKEND_TOKEN cfg = Some tok -> tok <> [] ->
      rq_auth rq <> Some (lit "Bearer " ++ tok) ->
      dispatch json_loads cfg st rq r w = Step unauthorized w []) /\
  (forall (cfg : config) (rq : request),
      BACKEND_TOKEN cfg = None \/ BACKEND_TOKEN cfg = Some [] ->
      check_auth cfg rq = None).
Proof.
  split; [|exact check_auth_open].
  intros json_loads cfg st rq r w tok Hr Ht Hne Ha.
  pose proof (check_auth_reject cfg rq tok Ht Hne Ha) as Hc.
  destruct r; try discriminate; simpl;
    [ unfold get_stats | unfold list_notes | unfold read_note | unfold write_note
    | unfold list_canvas | unfold get_canvas | unfold create_canvas
    | unfold update_canvas | unfold delete_canvas ];
    rewrite Hc; reflexivity.
Qed.

Lemma C1_auth_gate_witness :
  let cfg := mkConfig (Some (lit "tok")) None None in
  let rq := mkRequest (Some (lit "Bearer nope")) (JObj []) [] [] [] in
  dispatch no_json cfg (init_stats []) rq (RDeleteCanvas (lit "foo")) sample_world
    = Step unauthorized sample_world [] /\
  check_auth (mkConfig None None None) rq = None.
Proof.
  split.
  - apply (proj1 C1_auth_gate no_json _ _ _ _ _ (lit "tok")).
    + reflexivity.
    + reflexivity.
    + discriminate.
    + simpl. intros H. injection H. discriminate.
  - apply (proj2 C1_auth_gate). left. reflexivity.
Defined.

(* ------------------------------------------------------------------ *)
(** ** C2: notes round-trip through the store *)

Lemma s3_fail_status (e : s3_error) (w : world) : status (out (s3_fail e w)) = 500.
Proof. reflexivity. Qed.

(** Claim C2: a [/writeNote] with filename [k] and text [c] that succeeds
    (HTTP 200), followed by an authorized [/readNote] with filename [k],
    answers 200 with [content] exactly [c]. *)
Theorem C2_note_roundtrip (cfg : config) (rq_w rq_r : request) (k c : pstr) (w : world) :
  py_get (rq_json rq_w) (lit "filename") JNull = Some (JStr k) ->
  py_get (rq_json rq_w) (lit "content") (JStr []) = Some (JStr c) ->
  py_get (rq_json rq_r) (lit "filename") JNull = Some (JStr k) ->
  check_auth cfg rq_r = None ->
  status (out (write_note cfg rq_w w)) = 200 ->
  out (read_note cfg rq_r (fin (write_note cfg rq_w w)))
    = Resp 200 (JObj [(lit "filename", JStr k); (lit "content", JStr c)]).
Proof.
  intros Hf Hc Hr Ha Hs.
  unfold write_note in Hs |- *.
  destruct (check_auth_cases cfg rq_w) as [Hw | Hw]; rewrite Hw in Hs |- *;
    [|discriminate].
  rewrite Hf, Hc in Hs |- *.
  destruct (negb (truthy (JStr k))) eqn:Hk; [discriminate|].
  destruct (py_encode c) as [body|] eqn:He; [|discriminate].
  unfold bind, s3_put in Hs |- *.
  destruct (fault w (lit "PutObject") k) eqn:Hfl; [discriminate|].
  apply fault_none in Hfl as [Hd Hn].
  simpl. unfold read_note. rewrite Ha, Hr, Hk.
  unfold bind, s3_get. simpl.
  assert (Hg : fault (mkWorld (<[k:=mkObj body None (clock w)]> (objects w))
                              (denied w) (down w) (endpoint_url w) (clock w))
                     (lit "GetObject") k = None) by (apply fault_none; simpl; auto).
  rewrite Hg, lookup_insert_eq. simpl.
  rewrite (utf8_roundtrip c body He). reflexivity.
Qed.

Lemma C2_note_roundtrip_witness :
  let cfg := mkConfig (Some (lit "tok")) None None in
  let k := lit "notes/today.md" in
  let c := [0x48; 0xE9; 0x20AC; 0x1F600] in
  let rq_w := bearer_request (lit "tok") (JObj [(lit "filename", JStr k); (lit "content", JStr c)]) in
  let rq_r := bearer_request (lit "tok") (JObj [(lit "filename", JStr k)]) in
  status (out (write_note cfg rq_w sample_world)) = 200 /\
  out (read_note cfg rq_r (fin (write_note cfg rq_w sample_world)))
    = Resp 200 (JObj [(lit "filename", JStr k); (lit "content", JStr c)]).
Proof.
  split; [vm_compute; reflexivity|].
  apply C2_note_roundtrip; vm_compute; reflexivity.
Defined.

(* ------------------------------------------------------------------ *)
(** ** C3: creating a canvas *)

Definition token_config : config := mkConfig (Some (lit "tok")) None None.

Definition canvas_body (f : pstr) (content : json) : json :=
  JObj [(lit "filename", JStr f); (lit "content", content)].




(* ------------------------------------------------------------------ *)
(** ** C4: updating a canvas that does not exist *)

Definition content_body (content : json) : json := JObj [(lit "content", content)].

Definition world_with_foo_canvas : world :=
  put_world sample_world (lit "foo.canvas")
            (mkObj (lit "{}") (Some (lit "application/json")) (clock sample_world)).

(** Claim C4 (counterexample): the key ["foo"] is absent from a bucket
    holding only ["foo.canvas"], yet [PUT /canvas/foo] answers 200 and
    writes ["foo.canvas"]. *)
Lemma C4_absent_key_updated :
  let s := update_canvas token_config
             (bearer_request (lit "tok") (content_body (JStr (lit "x")))) (lit "foo")
             world_with_foo_canvas in
  objects world_with_foo_canvas !! lit "foo" = None /\
  status (out s) = 200 /\ trace s = [CHead (lit "foo.canvas"); CPut (lit "foo.canvas") (lit "x")].
Proof. vm_compute. auto. Qed.

(** Claim C4 (amended): for every path [K] whose normalized key
    [normalize K] is absent from the store, [PUT /canvas/K] with truthy
    content performs only the existence check (no put) and leaves the
    store unchanged; it answers 404, or 500 when the store is
    unreachable. *)
Theorem C4_update_absent (cfg : config) (rq : request) (K : pstr) (content : json) (w : world) :
  check_auth cfg rq = None ->
  py_get (rq_json rq) (lit "content") JNull = Some content -> truthy content = true ->
  objects w !! normalize K = None ->
  let s := update_canvas cfg rq K w in
  fin s = w /\ trace s = [CHead (normalize K)] /\
  status (out s) = (if down w then 500 else 404).
Proof.
  intros Ha Hc Ht Hl. cbv zeta.
  unfold update_canvas. rewrite Ha, Hc, Ht. cbn [negb].
  rewrite bind_unfold. unfold s3_head.
  destruct (fault w (lit "HeadObject") (normalize K)) as [e|] eqn:Hf.
  - cbn [out fin trace].
    unfold fault in Hf. destruct (down w).
    + injection Hf as <-. repeat split; reflexivity.
    + destruct (decide (normalize K ∈ denied w)); [|discriminate].
      case_decide; injection Hf as <-; repeat split; reflexivity.
  - rewrite Hl. cbn [out fin trace].
    apply fault_none in Hf as [-> _]. repeat split; reflexivity.
Qed.

Lemma C4_update_absent_witness :
  let s := update_canvas token_config
             (bearer_request (lit "tok") (content_body (JStr (lit "x")))) (lit "bar")
             world_with_foo_canvas in
  fin s = world_with_foo_canvas /\ trace s = [CHead (normalize (lit "bar"))] /\
  status (out s) = (if down world_with_foo_canvas then 500 else 404).
Proof. apply (C4_update_absent _ _ _ (JStr (lit "x"))); vm_compute; reflexivity. Defined.

(* ------------------------------------------------------------------ *)
(** ** C5: store errors from the existence check *)

(** A bucket whose ["foo.canvas"] exists but which the credentials may not
    read or write (S3 answers 403). *)
Definition denied_world : world :=
  mkWorld (objects world_with_foo_canvas) {[ lit "foo.canvas" ]} false
          (endpoint_url sample_world) (clock sample_world).

(** Claim C5 (code bug): on an existing, access-denied ["foo.canvas"], the
    update and delete views answer 404 "not found" instead of 500, and the
    create view treats the 403 as absence and goes on to the put; the
    sibling [get_canvas] view, which only catches [NoSuchKey], answers 500
    with the error text. *)
Lemma C5_forbidden_head_is_not_found :
  let rq := bearer_request (lit "tok") (content_body (JStr (lit "x"))) in
  let rqc := bearer_request (lit "tok") (canvas_body (lit "foo") (JStr (lit "x"))) in
  out (update_canvas token_config rq (lit "foo") denied_world)
    = Resp 404 (err (lit "Canvas file 'foo.canvas' not found")) /\
  out (delete_canvas token_config rq (lit "foo") denied_world)
    = Resp 404 (err (lit "Canvas file 'foo.canvas' not found")) /\
  trace (create_canvas token_config rqc denied_world)
    = [CHead (lit "foo.canvas"); CPut (lit "foo.canvas") (lit "x")] /\
  out (get_canvas no_json token_config rq (lit "foo") denied_world)
    = Resp 500 (err (lit "An error occurred (AccessDenied) when calling the GetObject operation: Access Denied")).
Proof. vm_compute. auto. Qed.

(* ------------------------------------------------------------------ *)
(** ** C6: validation of required fields *)

(** Run a view to its result: step the binds, unfold the store calls and
    split on every condition. *)
Ltac run_view :=
  repeat first
    [ rewrite bind_unfold
    | progress cbn [out fin trace s3_head s3_put s3_get s3_delete s3_list s3_fail
                    get_err_str ret negb status app]
    | case_match ].




(* ------------------------------------------------------------------ *)
(** ** Lemmas on the bandwidth hooks *)

Definition zsum (l : list Z) : Z := fold_right Z.add 0 l.

(** What [track_bandwidth_before] adds to [total_bytes_received]. *)
Definition received_counted (rq : request) : Z :=
  if negb (is_empty (rq_data rq)) then zlen (rq_data rq)
  else if negb (is_empty (rq_form rq)) then zlen (flat_map encode_cp (form_str (rq_form rq)))
  else 0.

(** What [track_bandwidth_after] adds to the per-endpoint [bytes_received]. *)
Definition data_counted (rq : request) : Z :=
  if negb (is_empty (rq_data rq)) then zlen (rq_data rq) else 0.

Definition ep_received_sum (l : list (pstr * ep_stats)) : Z :=
  zsum (map (fun kv => ep_bytes_received kv.2) l).

Lemma zsum_app (l1 l2 : list Z) : zsum (l1 ++ l2) = zsum l1 + zsum l2.
Proof. induction l1; simpl; lia. Qed.

Lemma ep_ensure_sum (k : pstr) (l : list (pstr * ep_stats)) :
  ep_received_sum (ep_ensure k l) = ep_received_sum l.
Proof.
  unfold ep_ensure. destruct (assoc_get k l); [reflexivity|].
  unfold ep_received_sum. rewrite map_app, zsum_app. simpl. lia.
Qed.

Lemma ep_ensure_present (k : pstr) (l : list (pstr * ep_stats)) :
  is_Some (assoc_get k (ep_ensure k l)).
Proof.
  unfold ep_ensure. destruct (assoc_get k l) eqn:E; [eauto|].
  induction l as [|[k' e] t IH]; simpl.
  - rewrite decide_True; eauto.
  - simpl in E. case_decide; [discriminate|]. auto.
Qed.

Lemma ep_update_sum (k : pstr) (f : ep_stats -> ep_stats) (l : list (pstr * ep_stats)) :
  ep_received_sum (ep_update k f l) =
  ep_received_sum l + match assoc_get k l with
                      | Some e => ep_bytes_received (f e) - ep_bytes_received e
                      | None => 0
                      end.
Proof.
  unfold ep_received_sum. induction l as [|[k' e] t IH]; simpl; [lia|].
  case_decide; simpl; lia.
Qed.

Lemma ep_update_present (k : pstr) (f : ep_stats -> ep_stats) (l : list (pstr * ep_stats)) :
  is_Some (assoc_get k l) -> is_Some (assoc_get k (ep_update k f l)).
Proof.
  induction l as [|[k' e] t IH]; simpl; [auto|].
  case_decide; simpl; [rewrite decide_True; eauto | rewrite decide_False; auto].
Qed.

Lemma track_received (st : bstats) (ex : exchange) :
  total_bytes_received (track st ex) = total_bytes_received st + received_counted (ex_request ex).
Proof.
  unfold track, track_bandwidth_after, track_bandwidth_before, received_counted.
  destruct (negb (is_empty (rq_data _))); [simpl; lia|].
  destruct (negb (is_empty (rq_form _))); simpl; lia.
Qed.

Lemma track_sent (st : bstats) (ex : exchange) :
  total_bytes_sent (track st ex) = total_bytes_sent st + zlen (ex_response ex).
Proof.
  unfold track, track_bandwidth_after, track_bandwidth_before.
  destruct (ex_response ex); simpl;
    (destruct (negb (is_empty (rq_data _))); [|destruct (negb (is_empty (rq_form _)))]);
    simpl; unfold zlen; simpl; lia.
Qed.

Lemma track_requests (st : bstats) (ex : exchange) :
  total_requests (track st ex) = total_requests st + 1.
Proof.
  unfold track, track_bandwidth_after, track_bandwidth_before.
  destruct (negb (is_empty (rq_data _))); [|destruct (negb (is_empty (rq_form _)))];
    reflexivity.
Qed.

Lemma track_ep_received (st : bstats) (ex : exchange) :
  ep_received_sum (endpoints (track st ex)) =
  ep_received_sum (endpoints st) + data_counted (ex_request ex).
Proof.
  assert (Hb : endpoints (track_bandwidth_before st (ex_request ex)) = endpoints st).
  { unfold track_bandwidth_before.
    destruct (negb (is_empty (rq_data _))); [|destruct (negb (is_empty (rq_form _)))];
      reflexivity. }
  unfold track, track_bandwidth_after. cbn [endpoints]. rewrite Hb.
  set (k := default (lit "unknown") (ex_endpoint ex)).
  set (l1 := ep_ensure k (endpoints st)).
  assert (P1 : is_Some (assoc_get k l1)) by apply ep_ensure_present.
  set (l2 := ep_update k (fun e => mkEp (ep_requests e + 1) (ep_bytes_sent e) (ep_bytes_received e)) l1).
  assert (S2 : ep_received_sum l2 = ep_received_sum l1).
  { unfold l2. rewrite ep_update_sum. destruct (assoc_get k l1); simpl; lia. }
  assert (P2 : is_Some (assoc_get k l2)) by (apply ep_update_present; exact P1).
  set (l3 := if negb (is_empty (ex_response ex)) then _ else l2).
  assert (S3 : ep_received_sum l3 = ep_received_sum l2 /\ is_Some (assoc_get k l3)).
  { unfold l3. destruct (negb (is_empty (ex_response ex))); [|auto].
    rewrite ep_update_sum. split; [destruct (assoc_get k l2); simpl; lia|].
    apply ep_update_present; exact P2. }
  destruct S3 as [S3 P3].
  unfold data_counted. destruct (negb (is_empty (rq_data (ex_request ex)))).
  - rewrite ep_update_sum. destruct P3 as [e He]. rewrite He. simpl.
    rewrite S3, S2. unfold l1. rewrite ep_ensure_sum. lia.
  - rewrite S3, S2. unfold l1. rewrite ep_ensure_sum. lia.
Qed.

Lemma form_str_length (fm : list (pstr * pstr)) :
  0 < zlen (flat_map encode_cp (form_str fm)).
Proof. unfold zlen, form_str. simpl. lia. Qed.

Lemma run_tracker_cons (st : bstats) (ex : exchange) (exs : list exchange) :
  run_tracker st (ex :: exs) = run_tracker (track st ex) exs.
Proof. reflexivity. Qed.

(* ------------------------------------------------------------------ *)
(** ** C7: the totals reported by [/stats] *)

Definition form_exchange : exchange :=
  mkExchange (mkRequest None JNull [] [(lit "a", lit "b")] (lit "a=b"))
             (Some (lit "write_note")) (lit "{}").




(* ------------------------------------------------------------------ *)
(** ** C10: per-endpoint versus global received bytes *)

Definition form_only (ex : exchange) : Prop :=
  rq_data (ex_request ex) = [] /\ rq_form (ex_request ex) <> [].

Definition recv_gap (st : bstats) : Z :=
  total_bytes_received st - ep_received_sum (endpoints st).

Lemma track_gap (st : bstats) (ex : exchange) :
  recv_gap (track st ex) = recv_gap st + (received_counted (ex_request ex) - data_counted (ex_request ex)).
Proof. unfold recv_gap. rewrite track_received, track_ep_received. lia. Qed.

Lemma counted_gap_nonneg (rq : request) : 0 <= received_counted rq - data_counted rq.
Proof.
  unfold received_counted, data_counted.
  destruct (negb (is_empty (rq_data rq))); [lia|].
  destruct (negb (is_empty (rq_form rq))); [pose proof (form_str_length (rq_form rq))|]; lia.
Qed.

Lemma counted_gap_form (ex : exchange) :
  form_only ex -> 0 < received_counted (ex_request ex) - data_counted (ex_request ex).
Proof.
  intros [Hd Hf]. unfold received_counted, data_counted. rewrite Hd. cbn [is_empty negb].
  destruct (rq_form (ex_request ex)) as [|kv fm] eqn:E; [contradiction|].
  cbn [is_empty negb]. pose proof (form_str_length (kv :: fm)). lia.
Qed.

Lemma run_gap (st : bstats) (exs : list exchange) :
  recv_gap st <= recv_gap (run_tracker st exs) /\
  (Exists form_only exs -> recv_gap st < recv_gap (run_tracker st exs)).
Proof.
  revert st. induction exs as [|ex exs IH]; intros st.
  - unfold run_tracker; simpl. split; [lia | intros H; inversion H].
  - rewrite run_tracker_cons. destruct (IH (track st ex)) as [H1 H2].
    rewrite track_gap in H1, H2. pose proof (counted_gap_nonneg (ex_request ex)).
    split; [lia|]. intros Hex. inversion Hex as [? ? Hx | ? ? Hx]; subst.
    + pose proof (counted_gap_form ex Hx). lia.
    + specialize (H2 Hx). lia.
Qed.

(** Claim C10: after every sequence of requests, the per-endpoint
    [bytes_received] counters sum to at most [total_bytes_received], and
    strictly less once a request carried a form body and no raw body. *)
Theorem C10_endpoint_received_le_total :
  forall (t : pstr) (exs : list exchange),
    let st := run_tracker (init_stats t) exs in
    ep_received_sum (endpoints st) <= total_bytes_received st /\
    (Exists form_only exs -> ep_received_sum (endpoints st) < total_bytes_received st).
Proof.
  intros t exs. cbv zeta. destruct (run_gap (init_stats t) exs) as [H1 H2].
  change (recv_gap (init_stats t)) with 0 in H1, H2. unfold recv_gap in H1, H2.
  split; [lia | intros H; specialize (H2 H); lia].
Qed.

Lemma C10_endpoint_received_le_total_witness :
  let st := run_tracker (init_stats []) [form_exchange] in
  ep_received_sum (endpoints st) <= total_bytes_received st /\
  ep_received_sum (endpoints st) < total_bytes_received st.
Proof.
  destruct (C10_endpoint_received_le_total [] [form_exchange]) as [H1 H2].
  split; [exact H1|]. apply H2. constructor. split; [reflexivity | discriminate].
Defined.

(* ------------------------------------------------------------------ *)
(** ** C8: canvas filename normalization *)

Lemma content_ne_filename : lit "content" <> lit "filename".
Proof. vm_compute. discriminate. Qed.

Lemma truthy_nonempty (f : pstr) : f <> [] -> truthy (JStr f) = true.
Proof. destruct f; [contradiction | reflexivity]. Qed.

(** Claim C8: [normalize] always yields a key ending in [".canvas"] and is
    idempotent, so the get, update and delete views on path [F] and on
    path [normalize F] behave identically, and so does the create view on
    a (non-empty) body filename [F] and on [normalize F]. *)
Theorem C8_normalize_idempotent (F : pstr) :
  endswith (normalize F) (lit ".canvas") = true /\
  normalize (normalize F) = normalize F /\
  (forall (json_loads : pstr -> option json) (cfg : config) (rq : request) (w : world),
      get_canvas json_loads cfg rq F w = get_canvas json_loads cfg rq (normalize F) w) /\
  (forall (cfg : config) (rq : request) (w : world),
      update_canvas cfg rq F w = update_canvas cfg rq (normalize F) w) /\
  (forall (cfg : config) (rq : request) (w : world),
      delete_canvas cfg rq F w = delete_canvas cfg rq (normalize F) w) /\
  (F <> [] ->
   forall (cfg : config) (auth : option pstr) (rest : list (pstr * json))
          (d : bytes) (fm : list (pstr * pstr)) (b : bytes) (w : world),
      create_canvas cfg (mkRequest auth (JObj ((lit "filename", JStr F) :: rest)) d fm b) w
      = create_canvas cfg (mkRequest auth (JObj ((lit "filename", JStr (normalize F)) :: rest)) d fm b) w).
Proof.
  split; [apply normalize_endswith|].
  split; [apply normalize_idem|].
  split; [intros; unfold get_canvas; rewrite normalize_idem; reflexivity|].
  split; [intros; unfold update_canvas; rewrite normalize_idem; reflexivity|].
  split; [intros; unfold delete_canvas; rewrite normalize_idem; reflexivity|].
  intros Hne cfg auth rest d fm b w. unfold create_canvas. cbn [rq_json py_get].
  rewrite !assoc_get_head, !(assoc_get_other _ _ _ _ content_ne_filename). cbn [default id].
  unfold check_auth. cbn [rq_auth].
  rewrite (truthy_nonempty F Hne), (truthy_nonempty (normalize F) (normalize_nonempty F)).
  rewrite normalize_idem. reflexivity.
Qed.

Lemma C8_normalize_idempotent_witness :
  let F := lit "board" in
  endswith (normalize F) (lit ".canvas") = true /\
  normalize (normalize F) = normalize F /\
  (forall (json_loads : pstr -> option json) (cfg : config) (rq : request) (w : world),
      get_canvas json_loads cfg rq F w = get_canvas json_loads cfg rq (normalize F) w) /\
  (forall (cfg : config) (rq : request) (w : world),
      update_canvas cfg rq F w = update_canvas cfg rq (normalize F) w) /\
  (forall (cfg : config) (rq : request) (w : world),
      delete_canvas cfg rq F w = delete_canvas cfg rq (normalize F) w) /\
  (forall (cfg : config) (auth : option pstr) (rest : list (pstr * json))
          (d : bytes) (fm : list (pstr * pstr)) (b : bytes) (w : world),
      create_canvas cfg (mkRequest auth (JObj ((lit "filename", JStr F) :: rest)) d fm b) w
      = create_canvas cfg (mkRequest auth (JObj ((lit "filename", JStr (normalize F)) :: rest)) d fm b) w).
Proof.
  destruct (C8_normalize_idempotent (lit "board")) as (H1 & H2 & H3 & H4 & H5 & H6).
  split; [exact H1|]. split; [exact H2|]. split; [exact H3|].
  split; [exact H4|]. split; [exact H5|]. apply H6. discriminate.
Defined.

(* ------------------------------------------------------------------ *)
(** ** C9: [/writeNote] without a content field *)

(** Claim C9: an authorized [/writeNote] whose body has a non-empty string
    filename [k] and no [content] field never answers 400; on a reachable
    store that lets it write [k] it stores the empty string (zero bytes)
    under [k] and answers 200 with its success payload. *)
Theorem C9_write_default_content (cfg : config) (rq : request) (l : list (pstr * json)) (k : pstr) :
  check_auth cfg rq = None -> rq_json rq = JObj l ->
  assoc_get (lit "filename") l = Some (JStr k) -> k <> [] ->
  assoc_get (lit "content") l = None ->
  (forall w : world, status (out (write_note cfg rq w)) <> 400) /\
  (forall w : world, down w = false -> k ∉ denied w ->
     write_note cfg rq w
     = Step (Resp 200 (JObj [(lit "success", JBool true);
                             (lit "message", JStr (k ++ lit " uploaded"))]))
            (put_world w k (mkObj [] None (clock w))) [CPut k []]).
Proof.
  intros Ha Hj Hf Hk Hc.
  assert (E : forall w, write_note cfg rq w =
                bind (s3_put k [] None) (fun r => match r with
                  | inr _ => ret (Resp 200 (JObj [(lit "success", JBool true);
                                                  (lit "message", JStr (k ++ lit " uploaded"))]))
                  | inl e => s3_fail e end) w).
  { intros w. unfold write_note. rewrite Ha, Hj. cbn [py_get]. rewrite Hf, Hc. cbn [default id].
    rewrite (truthy_nonempty k Hk). reflexivity. }
  split.
  - intros w. rewrite E. rewrite bind_unfold. unfold s3_put.
    destruct (fault w (lit "PutObject") k); discriminate.
  - intros w Hd Hn. rewrite E, bind_unfold, s3_put_ok by (apply fault_none; auto).
    reflexivity.
Qed.

Lemma C9_write_default_content_witness :
  let rq := bearer_request (lit "tok") (JObj [(lit "filename", JStr (lit "empty.md"))]) in
  (forall w : world, status (out (write_note token_config rq w)) <> 400) /\
  (forall w : world, down w = false -> lit "empty.md" ∉ denied w ->
     write_note token_config rq w
     = Step (Resp 200 (JObj [(lit "success", JBool true);
                             (lit "message", JStr (lit "empty.md" ++ lit " uploaded"))]))
            (put_world w (lit "empty.md") (mkObj [] None (clock w))) [CPut (lit "empty.md") []]).
Proof.
  apply (C9_write_default_content _ _ [(lit "filename", JStr (lit "empty.md"))]);
    try reflexivity. discriminate.
Defined.

(* ------------------------------------------------------------------ *)
(** ** Listing the bucket *)

Lemma listed_key_present (m : gmap pstr obj) (k : pstr) :
  k ∈ take 1000 (map fst (map_to_list m)) -> is_Some (m !! k).
Proof.
  intros H. apply subseteq_take in H. apply list_elem_of_In, in_map_iff in H.
  destruct H as [[k' o] [Hk Hin]]. simpl in Hk. subst k'.
  apply list_elem_of_In, elem_of_map_to_list in Hin. eauto.
Qed.

Lemma present_key_listed (m : gmap pstr obj) (k : pstr) :
  (size m <= 1000)%nat -> is_Some (m !! k) -> k ∈ take 1000 (map fst (map_to_list m)).
Proof.
  intros Hs [o Ho]. rewrite take_ge by (rewrite length_map, length_map_to_list; lia).
  apply list_elem_of_In, in_map_iff. exists (k, o). split; [reflexivity|].
  apply list_elem_of_In, elem_of_map_to_list. exact Ho.
Qed.

(** [/listNotes] on a reachable store answers 200 with keys of the bucket
    only, makes one list call and changes nothing; when the bucket holds at
    most 1000 objects (one page) every key is listed, so an empty bucket
    gives an empty list. *)
Theorem list_notes_keys (cfg : config) (rq : request) (w : world) :
  check_auth cfg rq = None -> down w = false ->
  exists ks : list pstr,
    list_notes cfg rq w = Step (Resp 200 (JObj [(lit "files", JArr (map JStr ks))])) w [CList] /\
    (forall k, k ∈ ks -> is_Some (objects w !! k)) /\
    ((size (objects w) <= 1000)%nat -> forall k, is_Some (objects w !! k) -> k ∈ ks) /\
    (objects w = ∅ -> ks = []).
Proof.
  intros Ha Hd. exists (take 1000 (map fst (map_to_list (objects w)))).
  split; [unfold list_notes; rewrite Ha, bind_unfold; unfold s3_list; rewrite Hd; reflexivity|].
  split; [apply listed_key_present|].
  split; [intros Hs k; apply present_key_listed; exact Hs|].
  intros He. rewrite He, map_to_list_empty. reflexivity.
Qed.

Lemma list_notes_keys_witness :
  exists ks : list pstr,
    list_notes token_config (bearer_request (lit "tok") JNull) world_with_foo_canvas
      = Step (Resp 200 (JObj [(lit "files", JArr (map JStr ks))])) world_with_foo_canvas [CList] /\
    (forall k, k ∈ ks -> is_Some (objects world_with_foo_canvas !! k)) /\
    ((size (objects world_with_foo_canvas) <= 1000)%nat ->
       forall k, is_Some (objects world_with_foo_canvas !! k) -> k ∈ ks) /\
    (objects world_with_foo_canvas = ∅ -> ks = []).
Proof. apply list_notes_keys; reflexivity. Defined.

(** [GET /canvas] on a reachable store answers 200 with keys of the bucket
    that end in [".canvas"], and [count] their number; with at most 1000
    objects every [.canvas] key is listed. Plain notes never appear. *)
Theorem list_canvas_only_canvas (cfg : config) (rq : request) (w : world) :
  check_auth cfg rq = None -> down w = false ->
  exists ks : list pstr,
    list_canvas cfg rq w
      = Step (Resp 200 (JObj [(lit "count", JInt (zlen ks)); (lit "files", JArr (map JStr ks))]))
             w [CList] /\
    (forall k, k ∈ ks -> endswith k (lit ".canvas") = true /\ is_Some (objects w !! k)) /\
    ((size (objects w) <= 1000)%nat ->
       forall k, is_Some (objects w !! k) -> endswith k (lit ".canvas") = true -> k ∈ ks).
Proof.
  intros Ha Hd.
  exists (filter (fun k => endswith k (lit ".canvas") = true)
                 (take 1000 (map fst (map_to_list (objects w))))).
  split; [unfold list_canvas; rewrite Ha, bind_unfold; unfold s3_list; rewrite Hd; reflexivity|].
  split.
  - intros k Hk. apply list_elem_of_filter in Hk as [He Hk].
    split; [exact He | apply listed_key_present; exact Hk].
  - intros Hs k Hk He. apply list_elem_of_filter. split; [exact He|].
    apply present_key_listed; assumption.
Qed.

Lemma list_canvas_only_canvas_witness :
  exists ks : list pstr,
    list_canvas token_config (bearer_request (lit "tok") JNull) world_with_foo_canvas
      = Step (Resp 200 (JObj [(lit "count", JInt (zlen ks)); (lit "files", JArr (map JStr ks))]))
             world_with_foo_canvas [CList] /\
    (forall k, k ∈ ks -> endswith k (lit ".canvas") = true /\ is_Some (objects world_with_foo_canvas !! k)) /\
    ((size (objects world_with_foo_canvas) <= 1000)%nat ->
       forall k, is_Some (objects world_with_foo_canvas !! k) ->
                 endswith k (lit ".canvas") = true -> k ∈ ks).
Proof. apply list_canvas_only_canvas; reflexivity. Defined.

(* ------------------------------------------------------------------ *)
(** ** Which views touch the store *)

(** The routes whose view may put or delete an object. *)
Definition writes_store (r : route) : bool :=
  match r with
  | RWriteNote | RCreateCanvas | RUpdateCanvas _ | RDeleteCanvas _ => true
  | _ => false
  end.

(** The routes whose view calls the object store at all. *)
Definition uses_store (r : route) : bool :=
  match r with RHealth | RStats => false | _ => true end.

(** The read-only views ([/health], [/stats], [/listNotes], [/readNote],
    [GET /canvas], [GET /canvas/{name}]) never change the store, whatever
    the request and the store's state. *)
Theorem read_views_keep_store (json_loads : pstr -> option json) (cfg : config) (st : bstats)
    (rq : request) (r : route) (w : world) :
  writes_store r = false -> fin (dispatch json_loads cfg st rq r w) = w.
Proof.
  intros Hr. destruct r; try discriminate; cbn [dispatch];
    [ unfold health | unfold get_stats | unfold list_notes | unfold read_note
    | unfold list_canvas | unfold get_canvas ];
    run_view; reflexivity.
Qed.

Lemma read_views_keep_store_witness :
  fin (dispatch no_json token_config (init_stats []) (bearer_request (lit "tok") JNull)
                (RGetCanvas (lit "foo")) world_with_foo_canvas) = world_with_foo_canvas.
Proof. apply read_views_keep_store. reflexivity. Defined.

Ltac run_view_down Hd :=
  repeat first
    [ rewrite bind_unfold
    | progress unfold s3_head, s3_put, s3_get, s3_delete, s3_list, fault
    | rewrite Hd
    | progress cbn [out fin trace s3_fail get_err_str ret negb status app
                    is_client_error is_no_such_key]
    | case_match ].

(** When the store endpoint is unreachable, no view changes the store, and
    no view that uses the store answers 200 or 201 (each answers 401, 400
    or 500). *)
Theorem unreachable_store_no_success (json_loads : pstr -> option json) (cfg : config)
    (st : bstats) (rq : request) (r : route) (w : world) :
  down w = true ->
  fin (dispatch json_loads cfg st rq r w) = w /\
  (uses_store r = true ->
   status (out (dispatch json_loads cfg st rq r w)) <> 200 /\
   status (out (dispatch json_loads cfg st rq r w)) <> 201).
Proof.
  intros Hd. destruct r; cbn [dispatch uses_store];
    [ unfold health | unfold get_stats | unfold list_notes | unfold read_note
    | unfold write_note | unfold list_canvas | unfold get_canvas | unfold create_canvas
    | unfold update_canvas | unfold delete_canvas ];
    destruct (check_auth_cases cfg rq) as [Ha | Ha]; rewrite ?Ha; run_view_down Hd;
    (split; [reflexivity | try (intros H; discriminate H); split; discriminate]).
Qed.

Lemma unreachable_store_no_success_witness :
  let w := mkWorld (objects world_with_foo_canvas) ∅ true
                   (endpoint_url sample_world) (clock sample_world) in
  fin (dispatch no_json token_config (init_stats []) (bearer_request (lit "tok") (content_body (JStr (lit "x"))))
                (RUpdateCanvas (lit "foo")) w) = w /\
  (uses_store (RUpdateCanvas (lit "foo")) = true ->
   status (out (dispatch no_json token_config (init_stats []) (bearer_request (lit "tok") (content_body (JStr (lit "x"))))
                         (RUpdateCanvas (lit "foo")) w)) <> 200 /\
   status (out (dispatch no_json token_config (init_stats []) (bearer_request (lit "tok") (content_body (JStr (lit "x"))))
                         (RUpdateCanvas (lit "foo")) w)) <> 201).
Proof. apply unreachable_store_no_success. reflexivity. Defined.

(* ------------------------------------------------------------------ *)
(** ** Deleting and reading back canvases *)

Definition del_world (w : world) (k : pstr) : world :=
  mkWorld (delete k (objects w)) (denied w) (down w) (endpoint_url w) (clock w).

(** What a successful [delete_canvas] did. *)
Lemma delete_canvas_ok (cfg : config) (rq : request) (F : pstr) (w : world) :
  status (out (delete_canvas cfg rq F w)) = 200 ->
  down w = false /\ (normalize F ∉ denied w) /\
  fin (delete_canvas cfg rq F w) = del_world w (normalize F).
Proof.
  unfold delete_canvas. destruct (check_auth_cases cfg rq) as [H|H]; rewrite H; [|discriminate].
  rewrite bind_unfold. unfold s3_head.
  destruct (fault w (lit "HeadObject") (normalize F)) as [e|] eqn:Hf.
  { cbn [out fin trace]. destruct (is_client_error e); discriminate. }
  destruct (objects w !! normalize F) eqn:Hl; [|discriminate].
  apply fault_none in Hf as [Hd Hn].
  cbn [out fin trace]. rewrite bind_unfold. unfold s3_delete.
  assert (Hf' : fault w (lit "DeleteObject") (normalize F) = None) by (apply fault_none; auto).
  rewrite Hf'. intros _. auto.
Qed.

(** After a [DELETE /canvas/F] that answers 200, [GET /canvas/F] answers
    404 "Canvas file '<F>.canvas' not found". *)
Theorem delete_then_get_not_found (json_loads : pstr -> option json) (cfg : config)
    (rq_d rq_g : request) (F : pstr) (w : world) :
  check_auth cfg rq_g = None ->
  status (out (delete_canvas cfg rq_d F w)) = 200 ->
  out (get_canvas json_loads cfg rq_g F (fin (delete_canvas cfg rq_d F w)))
    = Resp 404 (err (canvas_msg "Canvas file '" (normalize F) "' not found")).
Proof.
  intros Ha Hs. destruct (delete_canvas_ok cfg rq_d F w Hs) as (Hd & Hn & ->).
  unfold get_canvas. rewrite Ha, bind_unfold. unfold s3_get.
  assert (Hg : fault (del_world w (normalize F)) (lit "GetObject") (normalize F) = None)
    by (apply fault_none; auto).
  rewrite Hg. cbn [objects del_world]. rewrite lookup_delete_eq. reflexivity.
Qed.

Lemma delete_then_get_not_found_witness :
  let rq := bearer_request (lit "tok") JNull in
  status (out (delete_canvas token_config rq (lit "foo") world_with_foo_canvas)) = 200 /\
  out (get_canvas no_json token_config rq (lit "foo")
                  (fin (delete_canvas token_config rq (lit "foo") world_with_foo_canvas)))
    = Resp 404 (err (canvas_msg "Canvas file '" (normalize (lit "foo")) "' not found")).
Proof.
  split; [vm_compute; reflexivity|].
  apply delete_then_get_not_found; [reflexivity | vm_compute; reflexivity].
Defined.

(** [DELETE /canvas/K] on a key whose normalized form is absent makes only
    the existence check (no delete call) and leaves the store unchanged; it
    answers 404, or 500 when the store is unreachable. *)
Theorem delete_absent_canvas (cfg : config) (rq : request) (K : pstr) (w : world) :
  check_auth cfg rq = None -> objects w !! normalize K = None ->
  let s := delete_canvas cfg rq K w in
  fin s = w /\ trace s = [CHead (normalize K)] /\
  status (out s) = (if down w then 500 else 404).
Proof.
  intros Ha Hl. cbv zeta.
  unfold delete_canvas. rewrite Ha, bind_unfold. unfold s3_head.
  destruct (fault w (lit "HeadObject") (normalize K)) as [e|] eqn:Hf.
  - cbn [out fin trace].
    unfold fault in Hf. destruct (down w).
    + injection Hf as <-. repeat split; reflexivity.
    + destruct (decide (normalize K ∈ denied w)); [|discriminate].
      case_decide; injection Hf as <-; repeat split; reflexivity.
  - rewrite Hl. cbn [out fin trace].
    apply fault_none in Hf as [-> _]. repeat split; reflexivity.
Qed.

Lemma delete_absent_canvas_witness :
  let s := delete_canvas token_config (bearer_request (lit "tok") JNull) (lit "bar")
                         world_with_foo_canvas in
  fin s = world_with_foo_canvas /\ trace s = [CHead (normalize (lit "bar"))] /\
  status (out s) = (if down world_with_foo_canvas then 500 else 404).
Proof. apply delete_absent_canvas; vm_compute; reflexivity. Defined.

(** What a successful [update_canvas] did. *)
Lemma update_canvas_ok (cfg : config) (rq : request) (F : pstr) (w : world) :
  status (out (update_canvas cfg rq F w)) = 200 ->
  exists content body,
    py_get (rq_json rq) (lit "content") JNull = Some content /\
    py_encode (canvas_content_str content) = Some body /\
    down w = false /\ (normalize F ∉ denied w) /\
    fin (update_canvas cfg rq F w)
      = put_world w (normalize F) (mkObj body (Some (lit "application/json")) (clock w)).
Proof.
  unfold update_canvas. destruct (check_auth_cases cfg rq) as [H|H]; rewrite H; [|discriminate].
  destruct (py_get (rq_json rq) (lit "content") JNull) as [content|]; [|discriminate].
  destruct (negb (truthy content)); [discriminate|].
  rewrite bind_unfold. unfold s3_head.
  destruct (fault w (lit "HeadObject") (normalize F)) as [e|] eqn:Hf.
  { cbn [out fin trace]. destruct (is_client_error e); discriminate. }
  destruct (objects w !! normalize F) eqn:Hl; [|discriminate].
  apply fault_none in Hf as [Hd Hn]. cbn [out fin trace].
  destruct (py_encode (canvas_content_str content)) as [body|] eqn:He; [|discriminate].
  rewrite bind_unfold, s3_put_ok by (apply fault_none; auto).
  intros _. exists content, body. auto.
Qed.

(** After a [PUT /canvas/F] that answers 200 with content [c],
    [GET /canvas/F] answers 200 with the stored text [s] (the JSON dump of
    [c], or [str(c)]) parsed by [json.loads] when it parses and [s] itself
    otherwise, its length as [size], and the store's clock as
    [last_modified]. *)
Theorem update_then_get (json_loads : pstr -> option json) (cfg : config)
    (rq_u rq_g : request) (F : pstr) (content : json) (w : world) :
  check_auth cfg rq_g = None ->
  py_get (rq_json rq_u) (lit "content") JNull = Some content ->
  status (out (update_canvas cfg rq_u F w)) = 200 ->
  let s := canvas_content_str content in
  out (get_canvas json_loads cfg rq_g F (fin (update_canvas cfg rq_u F w)))
    = Resp 200 (JObj [(lit "filename", JStr (normalize F));
                      (lit "content", default (JStr s) (json_loads s));
                      (lit "size", JInt (zlen s));
                      (lit "last_modified", JStr (clock w))]).
Proof.
  intros Ha Hc Hs. cbv zeta.
  destruct (update_canvas_ok cfg rq_u F w Hs) as (content' & body & Hc' & He & Hd & Hn & ->).
  rewrite Hc in Hc'. injection Hc' as <-.
  unfold get_canvas. rewrite Ha, bind_unfold. unfold s3_get.
  rewrite fault_put_world.
  assert (Hg : fault w (lit "GetObject") (normalize F) = None) by (apply fault_none; auto).
  rewrite Hg. cbn [objects put_world]. rewrite lookup_insert_eq. cbn [out fin o_body o_mtime].
  rewrite (utf8_roundtrip _ _ He). reflexivity.
Qed.

Lemma update_then_get_witness :
  let rq_u := bearer_request (lit "tok") (content_body (JObj [(lit "nodes", JArr [JInt 1])])) in
  let rq_g := bearer_request (lit "tok") JNull in
  let s := canvas_content_str (JObj [(lit "nodes", JArr [JInt 1])]) in
  status (out (update_canvas token_config rq_u (lit "foo") world_with_foo_canvas)) = 200 /\
  out (get_canvas no_json token_config rq_g (lit "foo")
                  (fin (update_canvas token_config rq_u (lit "foo") world_with_foo_canvas)))
    = Resp 200 (JObj [(lit "filename", JStr (normalize (lit "foo")));
                      (lit "content", default (JStr s) (no_json s));
                      (lit "size", JInt (zlen s));
                      (lit "last_modified", JStr (clock world_with_foo_canvas))]).
Proof.
  split; [vm_compute; reflexivity|].
  apply (update_then_get _ _ _ _ _ (JObj [(lit "nodes", JArr [JInt 1])]));
    [reflexivity | reflexivity | vm_compute; reflexivity].
Defined.

(** What a successful [create_canvas] did. *)
Lemma create_canvas_ok (cfg : config) (rq : request) (w : world) :
  status (out (create_canvas cfg rq w)) = 201 ->
  exists f content body,
    py_get (rq_json rq) (lit "filename") JNull = Some (JStr f) /\
    py_get (rq_json rq) (lit "content") JNull = Some content /\
    py_encode (canvas_content_str content) = Some body /\
    down w = false /\ (normalize f ∉ denied w) /\
    fin (create_canvas cfg rq w)
      = put_world w (normalize f) (mkObj body (Some (lit "application/json")) (clock w)).
Proof.
  unfold create_canvas. destruct (check_auth_cases cfg rq) as [H|H]; rewrite H; [|discriminate].
  destruct (py_get (rq_json rq) (lit "filename") JNull) as [filename0|]; [|discriminate].
  destruct (py_get (rq_json rq) (lit "content") JNull) as [content|]; [|discriminate].
  destruct (negb (truthy filename0)); [discriminate|].
  destruct (negb (truthy content)); [discriminate|].
  destruct filename0 as [| | |f| |]; try discriminate.
  rewrite bind_unfold. unfold s3_head.
  destruct (fault w (lit "HeadObject") (normalize f)) as [e|] eqn:Hf.
  - cbn [out fin trace]. destruct (is_client_error e) eqn:Hc; cbn [negb].
    + destruct (py_encode (canvas_content_str content)) as [body|] eqn:He; [|discriminate].
      rewrite bind_unfold. unfold s3_put.
      destruct (fault w (lit "PutObject") (normalize f)) as [e'|] eqn:Hp; [discriminate|].
      apply fault_none in Hp as [Hd Hn]. intros _. exists f, content, body. auto 10.
    + discriminate.
  - destruct (objects w !! normalize f); cbn [out fin trace]; [discriminate|].
    cbn [is_client_error negb].
    destruct (py_encode (canvas_content_str content)) as [body|] eqn:He; [|discriminate].
    apply fault_none in Hf as [Hd Hn].
    rewrite bind_unfold, s3_put_ok by (apply fault_none; auto).
    intros _. exists f, content, body. auto 10.
Qed.

(** After a [POST /canvas] that answers 201, [GET /canvas/f] on the posted
    filename [f] answers 200 with the stored text [s] (JSON dump or [str()]
    of the content) parsed by [json.loads] when it parses, and [s] itself
    otherwise, its length and the store's clock. *)
Theorem create_then_get (json_loads : pstr -> option json) (cfg : config)
    (rq_c rq_g : request) (f : pstr) (content : json) (w : world) :
  check_auth cfg rq_g = None ->
  py_get (rq_json rq_c) (lit "filename") JNull = Some (JStr f) ->
  py_get (rq_json rq_c) (lit "content") JNull = Some content ->
  status (out (create_canvas cfg rq_c w)) = 201 ->
  let s := canvas_content_str content in
  out (get_canvas json_loads cfg rq_g f (fin (create_canvas cfg rq_c w)))
    = Resp 200 (JObj [(lit "filename", JStr (normalize f));
                      (lit "content", default (JStr s) (json_loads s));
                      (lit "size", JInt (zlen s));
                      (lit "last_modified", JStr (clock w))]).
Proof.
  intros Ha Hf Hc Hs. cbv zeta.
  destruct (create_canvas_ok cfg rq_c w Hs)
    as (f' & content' & body & Hf' & Hc' & He & Hd & Hn & ->).
  rewrite Hf in Hf'. injection Hf' as <-. rewrite Hc in Hc'. injection Hc' as <-.
  unfold get_canvas. rewrite Ha, bind_unfold. unfold s3_get.
  rewrite fault_put_world.
  assert (Hg : fault w (lit "GetObject") (normalize f) = None) by (apply fault_none; auto).
  rewrite Hg. cbn [objects put_world]. rewrite lookup_insert_eq. cbn [out fin o_body o_mtime].
  rewrite (utf8_roundtrip _ _ He). reflexivity.
Qed.

Lemma create_then_get_witness :
  let c := JArr [JStr (lit "n1")] in
  let rq_c := bearer_request (lit "tok") (canvas_body (lit "bar") c) in
  let rq_g := bearer_request (lit "tok") JNull in
  let s := canvas_content_str c in
  status (out (create_canvas token_config rq_c world_with_foo_canvas)) = 201 /\
  out (get_canvas no_json token_config rq_g (lit "bar")
                  (fin (create_canvas token_config rq_c world_with_foo_canvas)))
    = Resp 200 (JObj [(lit "filename", JStr (normalize (lit "bar")));
                      (lit "content", default (JStr s) (no_json s));
                      (lit "size", JInt (zlen s));
                      (lit "last_modified", JStr (clock world_with_foo_canvas))]).
Proof.
  split; [vm_compute; reflexivity|].
  apply (create_then_get _ _ _ _ (lit "bar") (JArr [JStr (lit "n1")]));
    [reflexivity | reflexivity | reflexivity | vm_compute; reflexivity].
Defined.

(* ------------------------------------------------------------------ *)
(** ** Notes: error paths *)

(** [/writeNote] makes at most one store call: a put, under the str
    filename, of the UTF-8 encoding of a str content. In every other case
    (rejected token, missing filename, non-str or unencodable content,
    non-dict body) it makes no call and leaves the store as it was. *)
Theorem write_note_calls (cfg : config) (rq : request) (w : world) :
  (trace (write_note cfg rq w) = [] /\ fin (write_note cfg rq w) = w) \/
  exists k c body,
    py_get (rq_json rq) (lit "filename") JNull = Some (JStr k) /\
    py_get (rq_json rq) (lit "content") (JStr []) = Some (JStr c) /\
    py_encode c = Some body /\
    trace (write_note cfg rq w) = [CPut k body].
Proof.
  unfold write_note. destruct (check_auth cfg rq); [left; split; reflexivity|].
  destruct (py_get (rq_json rq) (lit "filename") JNull) as [filename|] eqn:Hf; [|left; split; reflexivity].
  destruct (py_get (rq_json rq) (lit "content") (JStr [])) as [content|] eqn:Hc; [|left; split; reflexivity].
  destruct (negb (truthy filename)); [left; split; reflexivity|].
  destruct content as [| | |c| |]; try (left; split; reflexivity).
  destruct (py_encode c) as [body|] eqn:He; [|left; split; reflexivity].
  destruct filename as [| | |k| |]; try (left; split; reflexivity).
  right. exists k, c, body. split; [auto|]. split; [auto|]. split; [auto|].
  rewrite bind_unfold. unfold s3_put.
  destruct (fault w (lit "PutObject") k); reflexivity.
Qed.





(** The routes whose view reads a field of the JSON body. *)
Definition reads_body (r : route) : bool :=
  match r with
  | RReadNote | RWriteNote | RCreateCanvas | RUpdateCanvas _ => true
  | _ => false
  end.

(** An authorized request to a view that reads the JSON body, whose body is
    is JSON but not an object (a list, a scalar or [null]), raises out of
    the view ([.get] on a non-dict) before any store call. *)
Theorem non_object_body_crashes (json_loads : pstr -> option json) (cfg : config)
    (st : bstats) (rq : request) (r : route) (w : world) :
  check_auth cfg rq = None -> reads_body r = true ->
  (forall l, rq_json rq <> JObj l) ->
  dispatch json_loads cfg st rq r w = Step Crash w [].
Proof.
  intros Ha Hr Hj.
  assert (Hg : forall k d, py_get (rq_json rq) k d = None).
  { intros k d. unfold py_get. destruct (rq_json rq); try reflexivity.
    exfalso. eapply Hj; reflexivity. }
  destruct r; try discriminate; cbn [dispatch];
    [unfold read_note | unfold write_note | unfold create_canvas | unfold update_canvas];
    rewrite Ha, !Hg; reflexivity.
Qed.

Lemma non_object_body_crashes_witness :
  dispatch no_json token_config (init_stats []) (bearer_request (lit "tok") (JArr [JInt 1]))
           RCreateCanvas world_with_foo_canvas = Step Crash world_with_foo_canvas [].
Proof. apply non_object_body_crashes; [reflexivity | reflexivity | intros l H; discriminate H]. Defined.

(** [POST /canvas] whose filename is truthy but not a str (a number, a
    list, an object, [true]) raises out of the view at
    [filename.endswith] before any store call. *)
Theorem create_nonstr_filename_crashes (cfg : config) (rq : request) (filename content : json)
    (w : world) :
  check_auth cfg rq = None ->
  py_get (rq_json rq) (lit "filename") JNull = Some filename -> truthy filename = true ->
  py_get (rq_json rq) (lit "content") JNull = Some content -> truthy content = true ->
  (forall f, filename <> JStr f) ->
  create_canvas cfg rq w = Step Crash w [].
Proof.
  intros Ha Hf Htf Hc Htc Hn. unfold create_canvas. rewrite Ha, Hf, Hc, Htf, Htc. cbn [negb].
  destruct filename; try reflexivity. exfalso. eapply Hn; reflexivity.
Qed.

Lemma create_nonstr_filename_crashes_witness :
  create_canvas token_config
    (bearer_request (lit "tok") (JObj [(lit "filename", JInt 7); (lit "content", JStr (lit "x"))]))
    world_with_foo_canvas = Step Crash world_with_foo_canvas [].
Proof.
  refine (create_nonstr_filename_crashes token_config _ (JInt 7) (JStr (lit "x")) _ _ _ _ _ _ _);
    first [reflexivity | intros f H; discriminate H].
Defined.

(* ------------------------------------------------------------------ *)
(** ** What a request can change *)

(** The one key a request may write: the str filename of the body for
    [/writeNote], its normalized form for [POST /canvas], and the
    normalized path for [PUT] and [DELETE /canvas/{name}]. *)
Definition store_target (rq : request) (r : route) : option pstr :=
  match r with
  | RWriteNote =>
      match py_get (rq_json rq) (lit "filename") JNull with
      | Some (JStr k) => Some k
      | _ => None
      end
  | RCreateCanvas =>
      match py_get (rq_json rq) (lit "filename") JNull with
      | Some (JStr f) => Some (normalize f)
      | _ => None
      end
  | RUpdateCanvas f | RDeleteCanvas f => Some (normalize f)
  | _ => None
  end.

Definition store_effect (w w' : world) (t : option pstr) : Prop :=
  w' = w \/
  exists k, t = Some k /\
    ((exists o, w' = put_world w k o) \/ w' = del_world w k).

Lemma dispatch_effect (json_loads : pstr -> option json) (cfg : config) (st : bstats)
    (rq : request) (r : route) (w : world) :
  store_effect w (fin (dispatch json_loads cfg st rq r w)) (store_target rq r).
Proof.
  unfold store_effect.
  destruct r; cbn [dispatch store_target];
    [ unfold health | unfold get_stats | unfold list_notes | unfold read_note
    | unfold write_note | unfold list_canvas | unfold get_canvas | unfold create_canvas
    | unfold update_canvas | unfold delete_canvas ];
    repeat first
      [ rewrite bind_unfold
      | progress unfold s3_head, s3_put, s3_get, s3_delete, s3_list
      | progress cbn [out fin trace s3_fail get_err_str ret negb app]
      | case_match ];
    first
      [ left; reflexivity
      | right; eexists; split; [reflexivity|]; left; eexists; reflexivity
      | right; eexists; split; [reflexivity|]; right; reflexivity ].
Qed.

(** Every request, whatever the store's state, changes at most the one
    object it names ([store_target]): every other key keeps its object,
    and the access list, the reachability, the endpoint and the clock are
    untouched. *)
Theorem request_frame (json_loads : pstr -> option json) (cfg : config) (st : bstats)
    (rq : request) (r : route) (w : world) (k : pstr) :
  store_target rq r <> Some k ->
  let w' := fin (dispatch json_loads cfg st rq r w) in
  objects w' !! k = objects w !! k /\ denied w' = denied w /\ down w' = down w /\
  endpoint_url w' = endpoint_url w /\ clock w' = clock w.
Proof.
  intros Ht. cbv zeta.
  destruct (dispatch_effect json_loads cfg st rq r w) as [-> | (k' & Hk & [[o ->] | ->])];
    [auto | |].
  - assert (k' <> k) by congruence.
    cbn [put_world objects denied down endpoint_url clock].
    rewrite lookup_insert_ne by congruence. auto.
  - assert (k' <> k) by congruence.
    cbn [del_world objects denied down endpoint_url clock].
    rewrite lookup_delete_ne by congruence. auto.
Qed.

Lemma request_frame_witness :
  let rq := bearer_request (lit "tok") (content_body (JStr (lit "x"))) in
  let w' := fin (dispatch no_json token_config (init_stats []) rq (RDeleteCanvas (lit "foo"))
                          world_with_foo_canvas) in
  objects w' !! lit "notes.md" = objects world_with_foo_canvas !! lit "notes.md" /\
  denied w' = denied world_with_foo_canvas /\ down w' = down world_with_foo_canvas /\
  endpoint_url w' = endpoint_url world_with_foo_canvas /\ clock w' = clock world_with_foo_canvas.
Proof. apply request_frame. vm_compute. intros H; discriminate H. Defined.

(* ------------------------------------------------------------------ *)
(** ** The per-endpoint table *)

Definition ep_fsum (g : ep_stats -> Z) (l : list (pstr * ep_stats)) : Z :=
  zsum (map (fun kv => g kv.2) l).

Definition ep_key (ex : exchange) : pstr := default (lit "unknown") (ex_endpoint ex).

Lemma ep_ensure_fsum (g : ep_stats -> Z) (k : pstr) (l : list (pstr * ep_stats)) :
  g (mkEp 0 0 0) = 0 -> ep_fsum g (ep_ensure k l) = ep_fsum g l.
Proof.
  intros H0. unfold ep_ensure. destruct (assoc_get k l); [reflexivity|].
  unfold ep_fsum. rewrite map_app, zsum_app. simpl. lia.
Qed.

Lemma ep_update_fsum (g : ep_stats -> Z) (k : pstr) (f : ep_stats -> ep_stats)
    (l : list (pstr * ep_stats)) :
  ep_fsum g (ep_update k f l) =
  ep_fsum g l + match assoc_get k l with Some e => g (f e) - g e | None => 0 end.
Proof.
  unfold ep_fsum. induction l as [|[k' e] t IH]; simpl; [lia|].
  case_decide; simpl; lia.
Qed.

Lemma assoc_get_app_single {V} (k k' : pstr) (v : V) (l : list (pstr * V)) :
  assoc_get k (l ++ [(k', v)]) =
  match assoc_get k l with Some x => Some x | None => if decide (k = k') then Some v else None end.
Proof.
  induction l as [|[k'' x] t IH]; simpl; [reflexivity|].
  destruct (decide (k = k'')); [reflexivity | exact IH].
Qed.

Lemma assoc_get_ep_ensure (k k' : pstr) (l : list (pstr * ep_stats)) :
  assoc_get k (ep_ensure k' l) =
  if decide (k = k') then Some (default (mkEp 0 0 0) (assoc_get k l)) else assoc_get k l.
Proof.
  unfold ep_ensure. destruct (assoc_get k' l) as [e|] eqn:E.
  - case_decide; subst; [rewrite E; reflexivity | reflexivity].
  - rewrite assoc_get_app_single. case_decide; subst; [rewrite E; reflexivity|].
    destruct (assoc_get k l); reflexivity.
Qed.

Lemma assoc_get_ep_update (k k' : pstr) (f : ep_stats -> ep_stats) (l : list (pstr * ep_stats)) :
  assoc_get k (ep_update k' f l) =
  if decide (k = k') then option_map f (assoc_get k l) else assoc_get k l.
Proof.
  induction l as [|[k'' e] t IH]; simpl; [case_decide; reflexivity|].
  destruct (decide (k' = k'')) as [->|Hne]; simpl.
  - destruct (decide (k = k'')); reflexivity.
  - destruct (decide (k = k'')) as [->|Hne2].
    + rewrite decide_False by congruence. reflexivity.
    + rewrite IH. reflexivity.
Qed.

Lemma track_before_endpoints (st : bstats) (rq : request) :
  endpoints (track_bandwidth_before st rq) = endpoints st.
Proof.
  unfold track_bandwidth_before.
  destruct (negb (is_empty (rq_data _))); [|destruct (negb (is_empty (rq_form _)))]; reflexivity.
Qed.

Lemma track_before_sent (st : bstats) (rq : request) :
  total_bytes_sent (track_bandwidth_before st rq) = total_bytes_sent st.
Proof.
  unfold track_bandwidth_before.
  destruct (negb (is_empty (rq_data _))); [|destruct (negb (is_empty (rq_form _)))]; reflexivity.
Qed.

(** How one request changes the entry of endpoint [k]. *)
Lemma track_entry (st : bstats) (ex : exchange) (k : pstr) :
  assoc_get k (endpoints (track st ex)) =
  if decide (k = ep_key ex) then
    let e := default (mkEp 0 0 0) (assoc_get k (endpoints st)) in
    Some (mkEp (ep_requests e + 1) (ep_bytes_sent e + zlen (ex_response ex))
               (ep_bytes_received e + data_counted (ex_request ex)))
  else assoc_get k (endpoints st).
Proof.
  unfold track, track_bandwidth_after. cbn [endpoints]. rewrite track_before_endpoints.
  fold (ep_key ex). unfold data_counted.
  destruct (negb (is_empty (rq_data (ex_request ex)))) eqn:Hd;
    destruct (negb (is_empty (ex_response ex))) eqn:Hr;
    rewrite ?assoc_get_ep_update, assoc_get_ep_ensure;
    (case_decide as Hk; [|reflexivity]);
    cbn [option_map default ep_requests ep_bytes_sent ep_bytes_received];
    destruct (ex_response ex); try discriminate; unfold zlen; cbn [length];
    f_equal; f_equal; lia.
Qed.

Lemma track_fsum (st : bstats) (ex : exchange) :
  ep_fsum ep_requests (endpoints (track st ex)) = ep_fsum ep_requests (endpoints st) + 1 /\
  ep_fsum ep_bytes_sent (endpoints (track st ex)) =
    ep_fsum ep_bytes_sent (endpoints st) + zlen (ex_response ex).
Proof.
  unfold track, track_bandwidth_after. cbn [endpoints]. rewrite track_before_endpoints.
  fold (ep_key ex).
  set (k := ep_key ex).
  assert (P1 : is_Some (assoc_get k (ep_ensure k (endpoints st)))) by apply ep_ensure_present.
  set (l1 := ep_ensure k (endpoints st)) in *.
  set (l2 := ep_update k _ l1).
  assert (P2 : is_Some (assoc_get k l2)) by (apply ep_update_present; exact P1).
  destruct P1 as [e1 E1].
  assert (R2 : ep_fsum ep_requests l2 = ep_fsum ep_requests (endpoints st) + 1 /\
               ep_fsum ep_bytes_sent l2 = ep_fsum ep_bytes_sent (endpoints st)).
  { unfold l2. rewrite !ep_update_fsum, E1. unfold l1.
    rewrite !ep_ensure_fsum by reflexivity. cbn. lia. }
  assert (R3 : let l3 := if negb (is_empty (ex_response ex)) then
                 ep_update k (fun e => mkEp (ep_requests e) (ep_bytes_sent e + zlen (ex_response ex))
                                          (ep_bytes_received e)) l2 else l2 in
               ep_fsum ep_requests l3 = ep_fsum ep_requests (endpoints st) + 1 /\
               ep_fsum ep_bytes_sent l3 = ep_fsum ep_bytes_sent (endpoints st) + zlen (ex_response ex)
               /\ is_Some (assoc_get k l3)).
  { cbv zeta. destruct (ex_response ex) as [|b bs] eqn:Hr; cbn [is_empty negb].
    - unfold zlen. cbn [length]. split; [lia|]. split; [lia | exact P2].
    - destruct P2 as [e2 E2]. rewrite !ep_update_fsum, E2. cbn.
      split; [lia|]. split; [lia|]. apply ep_update_present. eauto. }
  cbv zeta in R3. destruct R3 as (R3a & R3b & P3).
  destruct (negb (is_empty (rq_data (ex_request ex)))).
  - destruct P3 as [e3 E3]. rewrite !ep_update_fsum, E3. cbn. lia.
  - lia.
Qed.

Lemma run_tracker_app (st : bstats) (exs : list exchange) (ex : exchange) :
  run_tracker st (exs ++ [ex]) = track (run_tracker st exs) ex.
Proof. unfold run_tracker. rewrite fold_left_app. reflexivity. Qed.

(** From process start, the per-endpoint request counts add up to
    [total_requests] and the per-endpoint [bytes_sent] add up to
    [total_bytes_sent]. *)
Theorem endpoint_sums_match_totals (t : pstr) (exs : list exchange) :
  let st := run_tracker (init_stats t) exs in
  ep_fsum ep_requests (endpoints st) = total_requests st /\
  ep_fsum ep_bytes_sent (endpoints st) = total_bytes_sent st.
Proof.
  cbv zeta. induction exs as [|ex exs IH] using rev_ind; [split; reflexivity|].
  rewrite run_tracker_app. destruct (track_fsum (run_tracker (init_stats t) exs) ex) as [A B].
  rewrite A, B, track_requests, track_sent. lia.
Qed.

(** The entry the table should hold for endpoint [k] after [exs]: none if
    no request went to [k], else the count of those requests, the sum of
    their response sizes and the sum of their raw-data sizes. *)
Definition ep_expected (k : pstr) (exs : list exchange) : option ep_stats :=
  let xs := filter (fun ex => ep_key ex = k) exs in
  match xs with
  | [] => None
  | _ => Some (mkEp (zlen xs) (zsum (map (fun ex => zlen (ex_response ex)) xs))
                    (zsum (map (fun ex => data_counted (ex_request ex)) xs)))
  end.

Lemma ep_expected_default (k : pstr) (exs : list exchange) :
  let xs := filter (fun ex => ep_key ex = k) exs in
  default (mkEp 0 0 0) (ep_expected k exs) =
  mkEp (zlen xs) (zsum (map (fun ex => zlen (ex_response ex)) xs))
       (zsum (map (fun ex => data_counted (ex_request ex)) xs)).
Proof. cbv zeta. unfold ep_expected. destruct (filter _ exs); reflexivity. Qed.

(** From process start, the [/stats] table has an entry for endpoint [k]
    exactly when some request went to [k] (a request with no matched
    endpoint counts under "unknown"), and that entry holds the number of
    those requests, the sum of their response sizes and the sum of their
    non-empty [request.data] sizes (form bodies are not counted there). *)
Theorem endpoint_entry (t : pstr) (exs : list exchange) (k : pstr) :
  assoc_get k (endpoints (run_tracker (init_stats t) exs)) = ep_expected k exs.
Proof.
  induction exs as [|ex exs IH] using rev_ind; [reflexivity|].
  rewrite run_tracker_app, track_entry, IH.
  pose proof (ep_expected_default k exs) as Hd. cbv zeta in Hd.
  unfold ep_expected at 3. rewrite filter_app.
  destruct (decide (k = ep_key ex)) as [Hk|Hk].
  - rewrite filter_cons_True, filter_nil by congruence. rewrite Hd.
    set (xs := filter _ exs) in *.
    destruct (xs ++ [ex]) as [|z zs] eqn:E; [destruct xs; discriminate|].
    cbv iota. rewrite <- E.
    unfold zlen. rewrite length_app, !map_app, !zsum_app. cbn. f_equal; f_equal; lia.
  - rewrite filter_cons_False, filter_nil, app_nil_r by congruence. reflexivity.
Qed.
